(** * Profit AI trading bot (backend-server.js): indicators and position engine

    A shallow embedding of the [Indicators] class and of the [TradingEngine]
    state transitions of [backend-server.js], with the properties of the
    specification stated and proved over it.

    Numbers.  The program is read twice.  In the first reading a JavaScript
    number is a [num]: an exact rational, the two infinities, or NaN.
    Arithmetic on finite values is exact (rounding, overflow and the sign
    of zero are outside this reading); division by zero, the infinities and
    NaN behave as in JavaScript, and every comparison with NaN is false.
    This reading carries the properties that rounding does not touch:
    statements about the control flow, the requests and the state, and sign
    arguments that hold for the rounded values as well.  In the second
    reading, [B64], a number is a binary64 value and every operation is the
    rounded one of the code.  The rules in which a rounded result decides a
    branch or fixes a reported number (the entry rule, the momentum rule,
    the lot size, the balance) are stated over [B64].

    Effects.  The venue gateway ([AsterDexAPI]) is an external collaborator:
    each of its answers is an input of the transition that awaits it, and
    each request that a transition issues is recorded in its output.  The
    mutable [tradingState] is passed through the transitions explicitly.

    Contents: numbers; data model and indicators; the trading engine;
    the notions and the concrete series the statements use; the program
    over binary64; then the properties, indicator by indicator and
    transition by transition, first those of the exact reading, then those
    of the binary64 reading. *)

From Stdlib Require Import QArith Qabs Qround Lqa List Lia Bool ZArith.
From Stdlib Require Import PrimFloat.
From Stdlib Require FloatOps SpecFloat Uint63.
Import ListNotations.

Local Open Scope Q_scope.

(** ** JavaScript numbers *)

Module Num.

Inductive num : Type :=
| Fin (q : Q)
| PInf
| NInf
| NaN.

Definition Qltb (a b : Q) : bool := negb (Qle_bool b a).

Definition of_nat (n : nat) : num := Fin (inject_Z (Z.of_nat n)).

Definition isNaN (x : num) : bool :=
  match x with NaN => true | _ => false end.

(** [x + y] *)
Definition add (x y : num) : num :=
  match x, y with
  | NaN, _ | _, NaN => NaN
  | Fin a, Fin b => Fin (a + b)
  | PInf, NInf | NInf, PInf => NaN
  | PInf, _ | _, PInf => PInf
  | NInf, _ | _, NInf => NInf
  end.

(** [x - y] *)
Definition sub (x y : num) : num :=
  match x, y with
  | NaN, _ | _, NaN => NaN
  | Fin a, Fin b => Fin (a - b)
  | PInf, PInf | NInf, NInf => NaN
  | PInf, _ | _, NInf => PInf
  | NInf, _ | _, PInf => NInf
  end.

(** An infinity times (or divided by) a finite value of sign [a ?= 0];
    [pos] says whether the infinity is the positive one. *)
Definition signed_inf (pos : bool) (a : Q) : num :=
  match a ?= 0 with
  | Gt => if pos then PInf else NInf
  | Lt => if pos then NInf else PInf
  | Eq => NaN
  end.

(** [x * y] *)
Definition mul (x y : num) : num :=
  match x, y with
  | NaN, _ | _, NaN => NaN
  | Fin a, Fin b => Fin (a * b)
  | Fin a, PInf | PInf, Fin a => signed_inf true a
  | Fin a, NInf | NInf, Fin a => signed_inf false a
  | PInf, PInf | NInf, NInf => PInf
  | PInf, NInf | NInf, PInf => NInf
  end.

(** [x / y]; a zero divisor is the positive zero. *)
Definition div (x y : num) : num :=
  match x, y with
  | NaN, _ | _, NaN => NaN
  | Fin a, Fin b =>
      if Qeq_bool b 0 then signed_inf true a else Fin (a / b)
  | Fin _, _ => Fin 0
  | PInf, Fin b => if Qltb b 0 then NInf else PInf
  | NInf, Fin b => if Qltb b 0 then PInf else NInf
  | _, _ => NaN
  end.

(** [Math.abs(x)] *)
Definition abs (x : num) : num :=
  match x with
  | Fin a => Fin (Qabs a)
  | PInf | NInf => PInf
  | NaN => NaN
  end.

(** [Math.floor(x)] *)
Definition floor (x : num) : num :=
  match x with
  | Fin a => Fin (inject_Z (Qfloor a))
  | _ => x
  end.

(** [x < y] *)
Definition ltb (x y : num) : bool :=
  match x, y with
  | NaN, _ | _, NaN => false
  | Fin a, Fin b => Qltb a b
  | _, NInf | PInf, _ => false
  | NInf, _ | _, PInf => true
  end.

(** [x <= y] *)
Definition leb (x y : num) : bool :=
  match x, y with
  | NaN, _ | _, NaN => false
  | Fin a, Fin b => Qle_bool a b
  | NInf, _ | _, PInf => true
  | _, NInf | PInf, _ => false
  end.

(** [x > y] and [x >= y] *)
Definition gtb (x y : num) : bool := ltb y x.
Definition geb (x y : num) : bool := leb y x.

(** [Math.max(x, y)], and the three-argument call as the engine uses it:
    NaN as soon as one argument is NaN. *)
Definition max2 (x y : num) : num :=
  if isNaN x || isNaN y then NaN else if ltb x y then y else x.

Definition max (x y z : num) : num := max2 (max2 x y) z.

(** Truthiness of a number: [0] and [NaN] are falsy. *)
Definition truthy (x : num) : bool :=
  match x with
  | Fin a => negb (Qeq_bool a 0)
  | NaN => false
  | _ => true
  end.

(** A nullable number in an arithmetic position: [null] converts to 0. *)
Definition to_number (x : option num) : num :=
  match x with Some v => v | None => Fin 0 end.

(** Equality of values (finite values as rationals); NaN is identified
    with itself here, this is the equality of the model, not [===]. *)
Definition eqv (x y : num) : Prop :=
  match x, y with
  | Fin a, Fin b => a == b
  | PInf, PInf | NInf, NInf | NaN, NaN => True
  | _, _ => False
  end.

End Num.

Import Num.

Declare Scope num_scope.
Delimit Scope num_scope with num.
Bind Scope num_scope with num.
Infix "+" := add : num_scope.
Infix "-" := sub : num_scope.
Infix "*" := mul : num_scope.
Infix "/" := div : num_scope.
Infix "<?" := ltb : num_scope.
Infix "<=?" := leb : num_scope.
Infix ">?" := gtb (at level 70) : num_scope.
Infix ">=?" := geb (at level 70) : num_scope.

(** ** Data model *)

Inductive direction : Type := LONG | SHORT.

(** The two values [detectSmartMoneySignal] returns besides [null]; also the
    side of an order. *)
Inductive side : Type := BUY | SELL.

Inductive exit_reason : Type := STOP_LOSS | TAKE_PROFIT.

Record candle : Type := mkCandle {
  timestamp : Z;
  open : num;
  high : num;
  low : num;
  close : num;
  volume : num
}.

Record atr_stop : Type := mkAtrStop {
  value : num;
  atr : option num
}.

Record signal : Type := mkSignal {
  type : direction;
  entryPrice : num;
  stopLoss : num;
  takeProfit : num;
  ma100 : num;
  atrStop : num
}.

(** ** CONFIG: the strategy constants *)

Definition MA_PERIOD : nat := 100.
Definition ATR_PERIOD : nat := 10.
Definition ATR_MULTIPLIER : num := Fin 3.
Definition RISK_REWARD_RATIO : num := Fin 1.

(** ** Indicators *)

(** [data.slice(-n)]: the last [n] elements, the whole array when [n] is 0
    or exceeds the length. *)
Definition slice_last {A : Type} (n : nat) (l : list A) : list A :=
  match n with
  | O => l
  | _ => skipn (length l - n) l
  end.

(** [data[i]]; every use below is guarded by a length test that keeps [i] in
    range, so the default is never read. *)
Definition no_candle : candle := mkCandle 0 NaN NaN NaN NaN NaN.
Definition idx (data : list candle) (i : nat) : candle := nth i data no_candle.

Definition calculateSMA (data : list candle) (period : nat) : option num :=
  if (length data <? period)%nat then None
  else
    let slice := slice_last period data in
    Some (fold_left (fun acc c => acc + close c) slice (Fin 0) / of_nat period)%num.

(** The true range of bar [i] (for [1 <= i]). *)
Definition trueRange (data : list candle) (i : nat) : num :=
  max (high (idx data i) - low (idx data i))%num
      (abs (high (idx data i) - close (idx data (i - 1))))
      (abs (low (idx data i) - close (idx data (i - 1)))).

(** The array the loop [for (i = 1; i < data.length; i++)] builds. *)
Definition trueRanges (data : list candle) : list num :=
  map (trueRange data) (seq 1 (length data - 1)).

Definition calculateATR (data : list candle) (period : nat) : option num :=
  if (length data <? period + 1)%nat then None
  else
    let recentTR := slice_last period (trueRanges data) in
    Some (fold_left add recentTR (Fin 0) / of_nat period)%num.

Definition calculateATRTrailingStop (data : list candle) (atrPeriod : nat)
    (atrMultiplier : num) : option atr_stop :=
  if (length data <? atrPeriod + 1)%nat then None
  else
    let atr := calculateATR data atrPeriod in
    let currentPrice := close (idx data (length data - 1)) in
    Some {| value := (currentPrice - to_number atr * atrMultiplier)%num;
            atr := atr |}.

Definition detectSmartMoneySignal (data : list candle) : option side :=
  if (length data <? 20)%nat then None
  else
    let current := idx data (length data - 1) in
    let previous := idx data (length data - 2) in
    let avgVolume :=
      (fold_left (fun sum c => sum + volume c) (slice_last 20 data) (Fin 0)
       / Fin 20)%num in
    let volumeSpike := (volume current >? avgVolume * Fin 1.5)%num in
    let momentum := (abs (close current - close previous) / close previous)%num in
    let strongMomentum := (momentum >? Fin 0.002)%num in
    if volumeSpike && (close current >? close previous)%num && strongMomentum
    then Some BUY
    else if volumeSpike && (close current <? close previous)%num && strongMomentum
    then Some SELL
    else None.

(** [!x] for a nullable number: [null], [0] and [NaN] are falsy. *)
Definition falsy_num (x : option num) : bool :=
  match x with Some v => negb (truthy v) | None => true end.

Definition checkEntrySignal (data : list candle) : option signal :=
  if (length data <? 100)%nat then None
  else
    let ma100 := calculateSMA data MA_PERIOD in
    let atrStop := calculateATRTrailingStop data ATR_PERIOD ATR_MULTIPLIER in
    let smartMoneySignal := detectSmartMoneySignal data in
    match ma100, atrStop with
    | Some ma100, Some atrStop =>
        if falsy_num (Some ma100) then None
        else
          let currentPrice := close (idx data (length data - 1)) in
          if (value atrStop >? ma100)%num
             && match smartMoneySignal with Some BUY => true | _ => false end
          then
            let risk := (currentPrice - ma100)%num in
            Some {| type := LONG;
                    entryPrice := currentPrice;
                    stopLoss := ma100;
                    takeProfit := (currentPrice + risk * RISK_REWARD_RATIO)%num;
                    ma100 := ma100;
                    atrStop := value atrStop |}
          else if (value atrStop <? ma100)%num
                  && match smartMoneySignal with Some SELL => true | _ => false end
          then
            let risk := (ma100 - currentPrice)%num in
            Some {| type := SHORT;
                    entryPrice := currentPrice;
                    stopLoss := ma100;
                    takeProfit := (currentPrice - risk * RISK_REWARD_RATIO)%num;
                    ma100 := ma100;
                    atrStop := value atrStop |}
          else None
    | _, _ => None
    end.

(** A position is the signal that opened it ([...signal]) with the order's
    quantity, the opening time and the venue's order identifier. *)
Record position : Type := mkPosition {
  pos_signal : signal;
  quantity : num;
  opened : Z;
  orderId : Z
}.

(** The result of [checkExit]: [{exit: true, reason, price}] or
    [{exit: false}]. *)
Inductive exit_check : Type :=
| Exit (reason : exit_reason) (price : num)
| NoExit.

Definition checkExit (position : position) (currentPrice : num) : exit_check :=
  match type (pos_signal position) with
  | LONG =>
      if (currentPrice <=? stopLoss (pos_signal position))%num
      then Exit STOP_LOSS currentPrice
      else if (currentPrice >=? takeProfit (pos_signal position))%num
      then Exit TAKE_PROFIT currentPrice
      else NoExit
  | SHORT =>
      if (currentPrice >=? stopLoss (pos_signal position))%num
      then Exit STOP_LOSS currentPrice
      else if (currentPrice <=? takeProfit (pos_signal position))%num
      then Exit TAKE_PROFIT currentPrice
      else NoExit
  end.

(** ** Trading engine *)

Record trade : Type := mkTrade {
  trade_type : direction;
  trade_entryPrice : num;
  exitPrice : num;
  trade_quantity : num;
  profit : num;
  reason : exit_reason;
  closed : Z
}.

(** [tradingState] *)
Record trading_state : Type := mkState {
  balance : num;
  inPosition : bool;
  currentPosition : option position;
  trades : list trade;
  priceData : list candle;
  lastUpdate : option Z
}.

Definition tradingState : trading_state :=
  {| balance := Fin 0;
     inPosition := false;
     currentPosition := None;
     trades := [];
     priceData := [];
     lastUpdate := None |}.

(** What the venue answers with when an order is accepted; [null] (a failed
    call) is [None]. *)
Record order : Type := mkOrder { order_id : Z }.

(** The requests the engine sends to the venue gateway.  The stop price of
    a stop order is sent as [stopLoss.toFixed(4)]; the request records the
    number it is printed from. *)
Inductive request : Type :=
| SetLeverage (leverage : num)
| GetBalance
| GetKlines
| PlaceMarketOrder (sd : side) (quantity : num)
| PlaceStopOrder (sd : side) (quantity : num) (stopPrice : num)
| ClosePosition.

(** The answers of the venue gateway, and the clock, during one transition.
    A failed call answers as the [catch] branch of its method does: balance
    0, no candles, [null] for the orders. *)
Record gateway : Type := mkGateway {
  getBalance : num;
  getKlines : list candle;
  placeMarketOrder : side -> num -> option order;
  placeStopOrder : side -> num -> num -> option order;
  api_closePosition : option order;
  clock : Z
}.

Section Engine.

(** [CONFIG.POSITION_SIZE] and [CONFIG.LEVERAGE] come from the environment
    (defaults 100 and 10). *)
Variable POSITION_SIZE : num.
Variable LEVERAGE : num.

Definition updatePriceData (s : trading_state) (api : gateway)
    : trading_state * list request :=
  let klines := getKlines api in
  if (0 <? length klines)%nat
  then ({| balance := balance s;
           inPosition := inPosition s;
           currentPosition := currentPosition s;
           trades := trades s;
           priceData := klines;
           lastUpdate := Some (clock api) |}, [GetKlines])
  else (s, [GetKlines]).

Definition initialize (s : trading_state) (api : gateway)
    : trading_state * list request :=
  let s1 := {| balance := getBalance api;
               inPosition := inPosition s;
               currentPosition := currentPosition s;
               trades := trades s;
               priceData := priceData s;
               lastUpdate := lastUpdate s |} in
  let (s2, reqs) := updatePriceData s1 api in
  (s2, [SetLeverage LEVERAGE; GetBalance] ++ reqs).

(** The order quantity of [openPosition]. *)
Definition orderQuantity (balance entryPrice : num) : num :=
  let positionValue := (balance * POSITION_SIZE / Fin 100 * LEVERAGE)%num in
  (floor (positionValue / entryPrice * Fin 10) / Fin 10)%num.

Definition openPosition (s : trading_state) (api : gateway) (signal : signal)
    : trading_state * list request :=
  let balance0 := getBalance api in
  let quantity := orderQuantity balance0 (entryPrice signal) in
  if (quantity <=? Fin 0)%num then (s, [GetBalance])
  else
    let side := match type signal with LONG => BUY | SHORT => SELL end in
    match placeMarketOrder api side quantity with
    | Some order =>
        let stopSide := match type signal with LONG => SELL | SHORT => BUY end in
        ({| balance := balance s;
            inPosition := true;
            currentPosition :=
              Some {| pos_signal := signal;
                      quantity := quantity;
                      opened := clock api;
                      orderId := order_id order |};
            trades := trades s;
            priceData := priceData s;
            lastUpdate := lastUpdate s |},
         [GetBalance; PlaceMarketOrder side quantity;
          PlaceStopOrder stopSide quantity (stopLoss signal)])
    | None => (s, [GetBalance; PlaceMarketOrder side quantity])
    end.

(** The realized profit of [closePosition]. *)
Definition realizedProfit (position : position) (exitPrice : num) : num :=
  let profit :=
    match type (pos_signal position) with
    | LONG => ((exitPrice - entryPrice (pos_signal position)) * quantity position)%num
    | SHORT => ((entryPrice (pos_signal position) - exitPrice) * quantity position)%num
    end in
  (profit * LEVERAGE)%num.

(** With no current position, [position.type] throws once the order has
    come back and the [catch] leaves the state as it was. *)
Definition closePosition (s : trading_state) (api : gateway)
    (reason : exit_reason) (exitPrice : num) : trading_state * list request :=
  match api_closePosition api, currentPosition s with
  | Some _, Some position =>
      let profit := realizedProfit position exitPrice in
      let trade := {| trade_type := type (pos_signal position);
                      trade_entryPrice := entryPrice (pos_signal position);
                      exitPrice := exitPrice;
                      trade_quantity := quantity position;
                      profit := profit;
                      reason := reason;
                      closed := clock api |} in
      ({| balance := (balance s + profit)%num;
          inPosition := false;
          currentPosition := None;
          trades := trades s ++ [trade];
          priceData := priceData s;
          lastUpdate := lastUpdate s |}, [ClosePosition])
  | _, _ => (s, [ClosePosition])
  end.

(** [priceData[priceData.length - 1]?.close] *)
Definition lastClose (data : list candle) : option num :=
  option_map close (nth_error data (length data - 1)).

Definition checkForSignals (s : trading_state) (api : gateway)
    : trading_state * list request :=
  let (s1, reqs) := updatePriceData s api in
  match lastClose (priceData s1) with
  | None => (s1, reqs)
  | Some currentPrice =>
      if negb (truthy currentPrice) then (s1, reqs)
      else
        match inPosition s1, currentPosition s1 with
        | true, Some position =>
            match checkExit position currentPrice with
            | Exit reason price =>
                let (s2, reqs2) := closePosition s1 api reason price in
                (s2, reqs ++ reqs2)
            | NoExit => (s1, reqs)
            end
        | _, _ =>
            match checkEntrySignal (priceData s1) with
            | Some signal =>
                let (s2, reqs2) := openPosition s1 api signal in
                (s2, reqs ++ reqs2)
            | None => (s1, reqs)
            end
        end
  end.

(** The operations that act on [tradingState], and runs of them: each
    operation meets the gateway answers of its own moment. *)
Inductive operation : Type :=
| Initialize
| CheckForSignals
| OpenPosition (signal : signal)
| ClosePositionOp (reason : exit_reason) (exitPrice : num).

Definition step (s : trading_state) (ev : operation * gateway)
    : trading_state * list request :=
  match fst ev with
  | Initialize => initialize s (snd ev)
  | CheckForSignals => checkForSignals s (snd ev)
  | OpenPosition signal => openPosition s (snd ev) signal
  | ClosePositionOp reason exitPrice => closePosition s (snd ev) reason exitPrice
  end.

Definition run (s : trading_state) (evs : list (operation * gateway))
    : trading_state :=
  fold_left (fun st ev => fst (step st ev)) evs s.

End Engine.

(** ** Specification-level notions *)

(** The sum and the arithmetic mean of a window, as the specification
    words them. *)
Definition sum (l : list num) : num := fold_left add l (Fin 0).
Definition mean (l : list num) : num := (sum l / of_nat (length l))%num.

(** [inPosition] and [currentPosition] agree. *)
Definition consistent (s : trading_state) : Prop :=
  (inPosition s = false /\ currentPosition s = None)
  \/ (inPosition s = true /\ exists pos, currentPosition s = Some pos).

(** The fields of the state the failure rule speaks of. *)
Definition core (s : trading_state)
    : num * bool * option position * list trade :=
  (balance s, inPosition s, currentPosition s, trades s).


(** A value that is not below zero: a non-negative rational, [+Infinity],
    or NaN (which no comparison puts below anything). *)
Definition not_negative (x : num) : Prop :=
  match x with
  | Fin a => 0 <= a
  | NInf => False
  | _ => True
  end.

(** ** Concrete series and positions *)

(** A bar that opens, peaks, bottoms and closes at [p], on volume [v]. *)
Definition flat (p v : Q) : candle :=
  mkCandle 0 (Fin p) (Fin p) (Fin p) (Fin p) (Fin v).

(** 99 flat bars at 100, then a bar that closes at 110 on ten times the
    volume. *)
Definition long_series : list candle :=
  repeat (flat 100 1) 99
  ++ [mkCandle 0 (Fin 100) (Fin 110) (Fin 100) (Fin 110) (Fin 10)].

(** 98 flat bars at 100, a bar up to 200, then a bar that falls back to 150
    on ten times the volume. *)
Definition short_series : list candle :=
  repeat (flat 100 1) 98
  ++ [mkCandle 0 (Fin 100) (Fin 200) (Fin 100) (Fin 200) (Fin 1);
      mkCandle 0 (Fin 200) (Fin 200) (Fin 100) (Fin 150) (Fin 10)].

(** The position [openPosition] records for the signal of [short_series]. *)
Definition short_position : position :=
  {| pos_signal :=
       {| type := SHORT;
          entryPrice := Fin 150;
          stopLoss := Fin 101.50;
          takeProfit := Fin 198.50;
          ma100 := Fin 101.50;
          atrStop := Fin 90.0 |};
     quantity := Fin 1;
     opened := 0;
     orderId := 1 |}.

(** The state with [short_position] open. *)
Definition short_state : trading_state :=
  {| balance := Fin 100;
     inPosition := true;
     currentPosition := Some short_position;
     trades := [];
     priceData := short_series;
     lastUpdate := Some 0%Z |}.

(** The signal of [long_series]: entry 110, stop-loss 100.1, take-profit
    119.9. *)
Definition long_signal : signal :=
  {| type := LONG;
     entryPrice := Fin 110;
     stopLoss := Fin 100.10;
     takeProfit := Fin 119.90;
     ma100 := Fin 100.10;
     atrStop := Fin 107.0 |}.

(** A gateway that reports a balance of 100 and accepts every order. *)
Definition funded_gateway (klines : list candle) : gateway :=
  {| getBalance := Fin 100;
     getKlines := klines;
     placeMarketOrder := fun _ _ => Some (mkOrder 7);
     placeStopOrder := fun _ _ _ => Some (mkOrder 8);
     api_closePosition := Some (mkOrder 9);
     clock := 1 |}.

(** A gateway that reports no balance. *)
Definition broke_gateway : gateway :=
  {| getBalance := Fin 0;
     getKlines := long_series;
     placeMarketOrder := fun _ _ => Some (mkOrder 7);
     placeStopOrder := fun _ _ _ => Some (mkOrder 8);
     api_closePosition := Some (mkOrder 9);
     clock := 1 |}.

(** The position [openPosition] records for [long_signal]. *)
Definition long_position : position :=
  {| pos_signal := long_signal;
     quantity := Fin 90.9;
     opened := 1;
     orderId := 7 |}.

(** A gateway that accepts the market order and rejects the stop order. *)
Definition no_stop_gateway : gateway :=
  {| getBalance := Fin 1000;
     getKlines := long_series;
     placeMarketOrder := fun _ _ => Some (mkOrder 7);
     placeStopOrder := fun _ _ _ => None;
     api_closePosition := None;
     clock := 1 |}.

(** A gateway that rejects every order and every close. *)
Definition no_fill_gateway : gateway :=
  {| getBalance := Fin 1000;
     getKlines := long_series;
     placeMarketOrder := fun _ _ => None;
     placeStopOrder := fun _ _ _ => None;
     api_closePosition := None;
     clock := 1 |}.

(** ** Venue gateway: closing the open position *)

(** What the venue reports for the symbol: [positionAmt] is the number
    [parseFloat(position.positionAmt)] reads. *)
Record venue_position : Type := mkVenuePosition { positionAmt : num }.

(** [x === y] on numbers: NaN equals nothing, itself included. *)
Definition strict_eqb (x y : num) : bool :=
  match x, y with
  | Fin a, Fin b => Qeq_bool a b
  | PInf, PInf | NInf, NInf => true
  | _, _ => false
  end.

Module AsterDexAPI.

(** [closePosition(symbol)]: [position] is what [getPosition] answered
    ([None] for no entry or a failed call), [placeMarketOrder] what the
    venue would answer to a market order.  The result is the answer the
    engine sees, with the market order that was sent, if any. *)
Definition closePosition (position : option venue_position)
    (placeMarketOrder : side -> num -> option order)
    : option order * option (side * num) :=
  match position with
  | None => (None, None)
  | Some position =>
      if strict_eqb (positionAmt position) (Fin 0) then (None, None)
      else
        let amount := abs (positionAmt position) in
        let side := if (positionAmt position >? Fin 0)%num then SELL else BUY in
        (placeMarketOrder side amount, Some (side, amount))
  end.

End AsterDexAPI.

(** ** The trade report ([/api/trades]) *)

Definition winningTrades (ts : list trade) : nat :=
  length (filter (fun t => (profit t >? Fin 0)%num) ts).

(** The number [winRate] prints with [toFixed(1)]; 0 without trades. *)
Definition winRate (ts : list trade) : num :=
  if (0 <? length ts)%nat
  then (of_nat (winningTrades ts) / of_nat (length ts) * Fin 100)%num
  else Fin 0.

(** ** Further notions *)

(** A cycle is an evaluation; [cycles apis] runs one per gateway answer. *)
Definition cycles (apis : list gateway) : list (operation * gateway) :=
  map (fun api => (CheckForSignals, api)) apis.

(** The profit of a trade follows from its own fields. *)
Definition profit_consistent (LEVERAGE : num) (t : trade) : Prop :=
  profit t =
  (match trade_type t with
   | LONG => (exitPrice t - trade_entryPrice t) * trade_quantity t
   | SHORT => (trade_entryPrice t - exitPrice t) * trade_quantity t
   end * LEVERAGE)%num.

(** The shapes of the request list of one cycle. *)
Inductive cycle_requests : list request -> Prop :=
| cycle_idle : cycle_requests [GetKlines]
| cycle_close : cycle_requests [GetKlines; ClosePosition]
| cycle_undersized : cycle_requests [GetKlines; GetBalance]
| cycle_rejected (sd : side) (q : num) :
    cycle_requests [GetKlines; GetBalance; PlaceMarketOrder sd q]
| cycle_open (q stop : num) (d : direction) :
    cycle_requests
      [GetKlines; GetBalance;
       PlaceMarketOrder (match d with LONG => BUY | SHORT => SELL end) q;
       PlaceStopOrder (match d with LONG => SELL | SHORT => BUY end) q stop].

(** The gateway [api] with its candles replaced. *)
Definition with_klines (api : gateway) (klines : list candle) : gateway :=
  {| getBalance := getBalance api;
     getKlines := klines;
     placeMarketOrder := placeMarketOrder api;
     placeStopOrder := placeStopOrder api;
     api_closePosition := api_closePosition api;
     clock := clock api |}.

(** ** The program over binary64 *)

(** JavaScript numbers are IEEE 754 binary64 values.  [B64] is the program
    once more, every operation evaluated as the code evaluates it: sums,
    differences, products and quotients rounded to the nearest double,
    overflow to an infinity, two zeros.  The definitions above read the same
    expressions over exact rationals; they carry the properties that
    rounding does not touch (sign arguments and statements free of
    arithmetic).  A property in which the code's rounded result decides a
    branch or fixes a reported number is stated over [B64]. *)

(** A decimal literal denotes, as in JavaScript, the double nearest to it. *)
Set Warnings "-inexact-float".

Module B64.

Local Open Scope float_scope.

(** [x < y], [x <= y], [x > y], [x >= y]: false whenever an operand is NaN. *)
Definition ltb (x y : float) : bool :=
  match x ?= y with FLt => true | _ => false end.
Definition leb (x y : float) : bool :=
  match x ?= y with FLt | FEq => true | _ => false end.
Definition gtb (x y : float) : bool :=
  match x ?= y with FGt => true | _ => false end.
Definition geb (x y : float) : bool :=
  match x ?= y with FGt | FEq => true | _ => false end.

Definition isNaN (x : float) : bool :=
  match x ?= x with FNotComparable => true | _ => false end.

(** Truthiness of a number: [+0], [-0] and NaN are falsy. *)
Definition truthy (x : float) : bool :=
  match x ?= 0 with FEq | FNotComparable => false | _ => true end.

(** [Math.max(x, y)]: NaN as soon as one argument is NaN, and [+0] above
    [-0]; the three-argument call as the engine uses it. *)
Definition max2 (x y : float) : float :=
  match x ?= y with
  | FLt => y
  | FGt => x
  | FEq => if PrimFloat.get_sign x then y else x
  | FNotComparable => PrimFloat.nan
  end.

Definition max (x y z : float) : float := max2 (max2 x y) z.

(** [Math.floor(x)]: a finite value [(-1)^s * m * 2^e] with [e < 0] is
    rounded down to an integer below [2^53] in magnitude, which converts
    exactly; every other value is returned as it is. *)
Definition floor (x : float) : float :=
  match FloatOps.Prim2SF x with
  | SpecFloat.S754_finite s m e =>
      if (0 <=? e)%Z then x
      else
        let z := ((if s then Z.neg m else Z.pos m) / 2 ^ (- e))%Z in
        if (0 <=? z)%Z then PrimFloat.of_uint63 (Uint63.of_Z z)
        else - PrimFloat.of_uint63 (Uint63.of_Z (- z))
  | _ => x
  end.

(** An array length or a period as a number. *)
Definition of_nat (n : nat) : float := PrimFloat.of_uint63 (Uint63.of_Z (Z.of_nat n)).

(** A nullable number in an arithmetic position: [null] converts to 0. *)
Definition to_number (x : option float) : float :=
  match x with Some v => v | None => 0 end.

Record candle : Type := mkCandle {
  timestamp : Z;
  open : float;
  high : float;
  low : float;
  close : float;
  volume : float
}.

Record atr_stop : Type := mkAtrStop {
  value : float;
  atr : option float
}.

Record signal : Type := mkSignal {
  type : direction;
  entryPrice : float;
  stopLoss : float;
  takeProfit : float;
  ma100 : float;
  atrStop : float
}.

Definition ATR_MULTIPLIER : float := 3.
Definition RISK_REWARD_RATIO : float := 1.

Definition no_candle : candle :=
  mkCandle 0 PrimFloat.nan PrimFloat.nan PrimFloat.nan PrimFloat.nan
    PrimFloat.nan.
Definition idx (data : list candle) (i : nat) : candle := nth i data no_candle.

Definition calculateSMA (data : list candle) (period : nat) : option float :=
  if (length data <? period)%nat then None
  else
    let slice := slice_last period data in
    Some (fold_left (fun acc c => acc + close c) slice 0 / of_nat period).

Definition trueRange (data : list candle) (i : nat) : float :=
  max (high (idx data i) - low (idx data i))
      (PrimFloat.abs (high (idx data i) - close (idx data (i - 1))))
      (PrimFloat.abs (low (idx data i) - close (idx data (i - 1)))).

Definition trueRanges (data : list candle) : list float :=
  map (trueRange data) (seq 1 (length data - 1)).

Definition calculateATR (data : list candle) (period : nat) : option float :=
  if (length data <? period + 1)%nat then None
  else
    let recentTR := slice_last period (trueRanges data) in
    Some (fold_left PrimFloat.add recentTR 0 / of_nat period).

Definition calculateATRTrailingStop (data : list candle) (atrPeriod : nat)
    (atrMultiplier : float) : option atr_stop :=
  if (length data <? atrPeriod + 1)%nat then None
  else
    let atr := calculateATR data atrPeriod in
    let currentPrice := close (idx data (length data - 1)) in
    Some {| value := currentPrice - to_number atr * atrMultiplier;
            atr := atr |}.

Definition detectSmartMoneySignal (data : list candle) : option side :=
  if (length data <? 20)%nat then None
  else
    let current := idx data (length data - 1) in
    let previous := idx data (length data - 2) in
    let avgVolume :=
      fold_left (fun sum c => sum + volume c) (slice_last 20 data) 0 / 20 in
    let volumeSpike := gtb (volume current) (avgVolume * 1.5) in
    let momentum :=
      PrimFloat.abs (close current - close previous) / close previous in
    let strongMomentum := gtb momentum 0.002 in
    if volumeSpike && gtb (close current) (close previous) && strongMomentum
    then Some BUY
    else if volumeSpike && ltb (close current) (close previous) && strongMomentum
    then Some SELL
    else None.

(** [!x] for a nullable number. *)
Definition falsy_num (x : option float) : bool :=
  match x with Some v => negb (truthy v) | None => true end.

Definition checkEntrySignal (data : list candle) : option signal :=
  if (length data <? 100)%nat then None
  else
    let ma100 := calculateSMA data MA_PERIOD in
    let atrStop := calculateATRTrailingStop data ATR_PERIOD ATR_MULTIPLIER in
    let smartMoneySignal := detectSmartMoneySignal data in
    match ma100, atrStop with
    | Some ma100, Some atrStop =>
        if falsy_num (Some ma100) then None
        else
          let currentPrice := close (idx data (length data - 1)) in
          if gtb (value atrStop) ma100
             && match smartMoneySignal with Some BUY => true | _ => false end
          then
            let risk := currentPrice - ma100 in
            Some {| type := LONG;
                    entryPrice := currentPrice;
                    stopLoss := ma100;
                    takeProfit := currentPrice + risk * RISK_REWARD_RATIO;
                    ma100 := ma100;
                    atrStop := value atrStop |}
          else if ltb (value atrStop) ma100
                  && match smartMoneySignal with Some SELL => true | _ => false end
          then
            let risk := ma100 - currentPrice in
            Some {| type := SHORT;
                    entryPrice := currentPrice;
                    stopLoss := ma100;
                    takeProfit := currentPrice - risk * RISK_REWARD_RATIO;
                    ma100 := ma100;
                    atrStop := value atrStop |}
          else None
    | _, _ => None
    end.

Record position : Type := mkPosition {
  pos_signal : signal;
  quantity : float;
  opened : Z;
  orderId : Z
}.

Inductive exit_check : Type :=
| Exit (reason : exit_reason) (price : float)
| NoExit.

Definition checkExit (position : position) (currentPrice : float) : exit_check :=
  match type (pos_signal position) with
  | LONG =>
      if leb currentPrice (stopLoss (pos_signal position))
      then Exit STOP_LOSS currentPrice
      else if geb currentPrice (takeProfit (pos_signal position))
      then Exit TAKE_PROFIT currentPrice
      else NoExit
  | SHORT =>
      if geb currentPrice (stopLoss (pos_signal position))
      then Exit STOP_LOSS currentPrice
      else if leb currentPrice (takeProfit (pos_signal position))
      then Exit TAKE_PROFIT currentPrice
      else NoExit
  end.

Record trade : Type := mkTrade {
  trade_type : direction;
  trade_entryPrice : float;
  exitPrice : float;
  trade_quantity : float;
  profit : float;
  reason : exit_reason;
  closed : Z
}.

Record trading_state : Type := mkState {
  balance : float;
  inPosition : bool;
  currentPosition : option position;
  trades : list trade;
  priceData : list candle;
  lastUpdate : option Z
}.

Definition tradingState : trading_state :=
  {| balance := 0;
     inPosition := false;
     currentPosition := None;
     trades := [];
     priceData := [];
     lastUpdate := None |}.

Inductive request : Type :=
| SetLeverage (leverage : float)
| GetBalance
| GetKlines
| PlaceMarketOrder (sd : side) (quantity : float)
| PlaceStopOrder (sd : side) (quantity : float) (stopPrice : float)
| ClosePosition.

Record gateway : Type := mkGateway {
  getBalance : float;
  getKlines : list candle;
  placeMarketOrder : side -> float -> option order;
  placeStopOrder : side -> float -> float -> option order;
  api_closePosition : option order;
  clock : Z
}.

Section Engine.

Variable POSITION_SIZE : float.
Variable LEVERAGE : float.

Definition updatePriceData (s : trading_state) (api : gateway)
    : trading_state * list request :=
  let klines := getKlines api in
  if (0 <? length klines)%nat
  then ({| balance := balance s;
           inPosition := inPosition s;
           currentPosition := currentPosition s;
           trades := trades s;
           priceData := klines;
           lastUpdate := Some (clock api) |}, [GetKlines])
  else (s, [GetKlines]).

Definition initialize (s : trading_state) (api : gateway)
    : trading_state * list request :=
  let s1 := {| balance := getBalance api;
               inPosition := inPosition s;
               currentPosition := currentPosition s;
               trades := trades s;
               priceData := priceData s;
               lastUpdate := lastUpdate s |} in
  let (s2, reqs) := updatePriceData s1 api in
  (s2, [SetLeverage LEVERAGE; GetBalance] ++ reqs).

Definition orderQuantity (balance entryPrice : float) : float :=
  let positionValue := balance * POSITION_SIZE / 100 * LEVERAGE in
  floor (positionValue / entryPrice * 10) / 10.

Definition openPosition (s : trading_state) (api : gateway) (signal : signal)
    : trading_state * list request :=
  let balance0 := getBalance api in
  let quantity := orderQuantity balance0 (entryPrice signal) in
  if leb quantity 0 then (s, [GetBalance])
  else
    let side := match type signal with LONG => BUY | SHORT => SELL end in
    match placeMarketOrder api side quantity with
    | Some order =>
        let stopSide := match type signal with LONG => SELL | SHORT => BUY end in
        ({| balance := balance s;
            inPosition := true;
            currentPosition :=
              Some {| pos_signal := signal;
                      quantity := quantity;
                      opened := clock api;
                      orderId := order_id order |};
            trades := trades s;
            priceData := priceData s;
            lastUpdate := lastUpdate s |},
         [GetBalance; PlaceMarketOrder side quantity;
          PlaceStopOrder stopSide quantity (stopLoss signal)])
    | None => (s, [GetBalance; PlaceMarketOrder side quantity])
    end.

Definition realizedProfit (position : position) (exitPrice : float) : float :=
  let profit :=
    match type (pos_signal position) with
    | LONG => (exitPrice - entryPrice (pos_signal position)) * quantity position
    | SHORT => (entryPrice (pos_signal position) - exitPrice) * quantity position
    end in
  profit * LEVERAGE.

Definition closePosition (s : trading_state) (api : gateway)
    (reason : exit_reason) (exitPrice : float) : trading_state * list request :=
  match api_closePosition api, currentPosition s with
  | Some _, Some position =>
      let profit := realizedProfit position exitPrice in
      let trade := {| trade_type := type (pos_signal position);
                      trade_entryPrice := entryPrice (pos_signal position);
                      exitPrice := exitPrice;
                      trade_quantity := quantity position;
                      profit := profit;
                      reason := reason;
                      closed := clock api |} in
      ({| balance := balance s + profit;
          inPosition := false;
          currentPosition := None;
          trades := trades s ++ [trade];
          priceData := priceData s;
          lastUpdate := lastUpdate s |}, [ClosePosition])
  | _, _ => (s, [ClosePosition])
  end.

Definition lastClose (data : list candle) : option float :=
  option_map close (nth_error data (length data - 1)).

Definition checkForSignals (s : trading_state) (api : gateway)
    : trading_state * list request :=
  let (s1, reqs) := updatePriceData s api in
  match lastClose (priceData s1) with
  | None => (s1, reqs)
  | Some currentPrice =>
      if negb (truthy currentPrice) then (s1, reqs)
      else
        match inPosition s1, currentPosition s1 with
        | true, Some position =>
            match checkExit position currentPrice with
            | Exit reason price =>
                let (s2, reqs2) := closePosition s1 api reason price in
                (s2, reqs ++ reqs2)
            | NoExit => (s1, reqs)
            end
        | _, _ =>
            match checkEntrySignal (priceData s1) with
            | Some signal =>
                let (s2, reqs2) := openPosition s1 api signal in
                (s2, reqs ++ reqs2)
            | None => (s1, reqs)
            end
        end
  end.

(** One operation of the engine with the gateway that answers it, and a run
    of operations from a state. *)
Inductive operation : Type :=
| Initialize
| CheckForSignals
| OpenPosition (signal : signal)
| ClosePositionOp (reason : exit_reason) (exitPrice : float).

Definition step (s : trading_state) (ev : operation * gateway)
    : trading_state * list request :=
  match fst ev with
  | Initialize => initialize s (snd ev)
  | CheckForSignals => checkForSignals s (snd ev)
  | OpenPosition signal => openPosition s (snd ev) signal
  | ClosePositionOp reason exitPrice => closePosition s (snd ev) reason exitPrice
  end.

Definition run (s : trading_state) (evs : list (operation * gateway))
    : trading_state :=
  fold_left (fun st ev => fst (step st ev)) evs s.

End Engine.

(** The sum and the arithmetic mean of a window. *)
Definition sum (l : list float) : float := fold_left PrimFloat.add l 0.
Definition mean (l : list float) : float := sum l / of_nat (length l).

(** The requests that place or close an order. *)
Definition is_order (r : request) : bool :=
  match r with
  | PlaceMarketOrder _ _ | PlaceStopOrder _ _ _ | ClosePosition => true
  | _ => false
  end.

(** A bar that opens, peaks, bottoms and closes at [p], on volume [v]. *)
Definition flat (p v : float) : candle := mkCandle 0 p p p p v.


(** The series of the exact reading, in doubles. *)
Definition long_series : list candle :=
  repeat (flat 100 1) 99 ++ [mkCandle 0 100 110 100 110 10].

Definition short_series : list candle :=
  repeat (flat 100 1) 98
  ++ [mkCandle 0 100 200 100 200 1; mkCandle 0 200 200 100 150 10].

(** 98 flat bars at -1, a bar up to 1, then a bar up to 97 on volume: the
    last 100 closes sum to 0. *)
Definition zero_mean_series : list candle :=
  repeat (flat (-1) 0) 98
  ++ [mkCandle 0 (-1) 1 (-1) 1 0; mkCandle 0 1 97 1 97 10].


(** 99 bars at 7999999999999999, then a close of 8015999999999999 on ten
    times the volume: the relative move, 16000000000000 / 7999999999999999,
    rounds to the double of the literal [0.002]. *)
Definition threshold_series : list candle :=
  repeat (flat 7999999999999999 1) 99
  ++ [mkCandle 0 7999999999999999 8015999999999999 7999999999999999
        8015999999999999 10].

(** A gateway that reports the balance [b] and accepts every order. *)
Definition funded_gateway (b : float) (klines : list candle) : gateway :=
  {| getBalance := b;
     getKlines := klines;
     placeMarketOrder := fun _ _ => Some (mkOrder 7);
     placeStopOrder := fun _ _ _ => Some (mkOrder 8);
     api_closePosition := Some (mkOrder 9);
     clock := 1 |}.

(** Two cycles of the engine: the first finds [long_series], the second the
    same bars followed by a bar at 130. *)
Definition two_cycles : list (operation * gateway) :=
  [(CheckForSignals, funded_gateway 100 long_series);
   (CheckForSignals, funded_gateway 100 (long_series ++ [flat 130 1]))].

(** A signal whose entry price is one million. *)
Definition expensive_signal : signal :=
  {| type := LONG;
     entryPrice := 1000000;
     stopLoss := 999000;
     takeProfit := 1001000;
     ma100 := 999000;
     atrStop := 999500 |}.

End B64.


(** ** Numbers: comparison lemmas *)

Lemma Qltb_lt (a b : Q) : Qltb a b = true <-> a < b.
Proof.
  unfold Qltb. rewrite negb_true_iff.
  split; intro H.
  - apply Qnot_le_lt. intro Hle. apply Qle_bool_iff in Hle. congruence.
  - destruct (Qle_bool b a) eqn:E; [|reflexivity].
    apply Qle_bool_iff in E. exfalso. apply (Qlt_not_le _ _ H E).
Qed.

Lemma Qltb_ge (a b : Q) : Qltb a b = false <-> b <= a.
Proof.
  unfold Qltb. rewrite negb_false_iff. apply Qle_bool_iff.
Qed.




Lemma ltb_asym (x y : num) : (x <? y)%num = true -> (y <? x)%num = false.
Proof.
  destruct x as [a| | |], y as [b| | |]; simpl; try congruence.
  rewrite Qltb_lt, Qltb_ge. apply Qlt_le_weak.
Qed.

(** A number is falsy exactly when it is zero or NaN. *)
Lemma truthy_false (x : num) :
  truthy x = false <-> x = NaN \/ exists q : Q, x = Fin q /\ q == 0.
Proof.
  destruct x as [a| | |]; simpl; split; intro H;
    try discriminate; try (left; reflexivity); try reflexivity;
    try (destruct H as [H|(q & H & _)]; discriminate).
  - right. exists a. split; [reflexivity|].
    apply negb_false_iff in H. apply Qeq_bool_iff. exact H.
  - destruct H as [H|(q & H & Hq)]; [discriminate|].
    injection H as ->. apply negb_false_iff, Qeq_bool_iff. exact Hq.
Qed.

(** ** Lists: the trailing window *)

Lemma slice_last_length {A : Type} (n : nat) (l : list A) :
  (n <= length l)%nat -> (n <= length (slice_last n l))%nat.
Proof.
  intro H. destruct n as [|n]; simpl; [lia|].
  rewrite length_skipn. lia.
Qed.

Lemma slice_last_length_pos {A : Type} (n : nat) (l : list A) :
  (0 < n <= length l)%nat -> length (slice_last n l) = n.
Proof.
  intros [Hn H]. destruct n as [|n]; [lia|]. simpl.
  rewrite length_skipn. lia.
Qed.

Lemma trueRanges_length (data : list candle) :
  length (trueRanges data) = (length data - 1)%nat.
Proof.
  unfold trueRanges. rewrite length_map, length_seq. reflexivity.
Qed.

(** ** Insufficient data *)

(** C9. On a series of fewer than 100 bars [checkEntrySignal] returns no
    signal, whatever the candles hold and whatever the indicators would
    compute on them. *)
Theorem checkEntrySignal_needs_100_bars (data : list candle) :
  (length data < 100)%nat -> checkEntrySignal data = None.
Proof.
  intro H. unfold checkEntrySignal.
  apply Nat.ltb_lt in H. rewrite H. reflexivity.
Qed.

(** On the last 99 bars of [long_series] the momentum signal is BUY and the
    trailing stop is defined, and still there is no entry. *)
Lemma checkEntrySignal_needs_100_bars_witness :
  detectSmartMoneySignal (tl long_series) = Some BUY
  /\ checkEntrySignal (tl long_series) = None.
Proof.
  split; [vm_compute; reflexivity|].
  apply (checkEntrySignal_needs_100_bars (tl long_series)).
  vm_compute. lia.
Defined.

Lemma fold_left_add_map {A : Type} (f : A -> num) (l : list A) (a : num) :
  fold_left (fun acc c => acc + f c)%num l a = fold_left add (map f l) a.
Proof.
  revert a. induction l as [|x l IH]; intro a; simpl; [reflexivity|apply IH].
Qed.

(** C8. [calculateSMA] returns [null] whenever the series is shorter than
    the period and [calculateATR] whenever it is shorter than period + 1;
    a number either of them returns is the mean of a window that holds at
    least [period] values ([period] closes, [period] true ranges). *)
Theorem indicators_need_their_lookback (data : list candle) (period : nat) :
  ((length data < period)%nat -> calculateSMA data period = None)
  /\ ((length data < period + 1)%nat -> calculateATR data period = None)
  /\ (forall v, calculateSMA data period = Some v ->
        (period <= length data)%nat
        /\ (period <= length (slice_last period data))%nat
        /\ v = (sum (map close (slice_last period data)) / of_nat period)%num)
  /\ (forall v, calculateATR data period = Some v ->
        (period + 1 <= length data)%nat
        /\ (period <= length (slice_last period (trueRanges data)))%nat
        /\ v = (sum (slice_last period (trueRanges data)) / of_nat period)%num).
Proof.
  unfold calculateSMA, calculateATR. repeat split.
  - intro H. apply Nat.ltb_lt in H. rewrite H. reflexivity.
  - intro H. apply Nat.ltb_lt in H. rewrite H. reflexivity.
  - destruct (length data <? period)%nat eqn:E; [discriminate|].
    apply Nat.ltb_ge in E. exact E.
  - destruct (length data <? period)%nat eqn:E; [discriminate|].
    apply Nat.ltb_ge in E. apply slice_last_length. exact E.
  - destruct (length data <? period)%nat eqn:E; [discriminate|].
    injection H as <-. unfold sum. rewrite fold_left_add_map. reflexivity.
  - destruct (length data <? period + 1)%nat eqn:E; [discriminate|].
    apply Nat.ltb_ge in E. exact E.
  - destruct (length data <? period + 1)%nat eqn:E; [discriminate|].
    apply Nat.ltb_ge in E. apply slice_last_length.
    rewrite trueRanges_length. lia.
  - destruct (length data <? period + 1)%nat eqn:E; [discriminate|].
    injection H as <-. reflexivity.
Qed.

(** Ten bars are too few for a 100-period average and for a 10-period ATR
    (which needs eleven). *)
Lemma indicators_need_their_lookback_witness :
  calculateSMA (firstn 10 long_series) 100 = None
  /\ calculateATR (firstn 10 long_series) 10 = None.
Proof.
  destruct (indicators_need_their_lookback (firstn 10 long_series) 100)
    as [Hsma _].
  destruct (indicators_need_their_lookback (firstn 10 long_series) 10)
    as [_ [Hatr _]].
  split; [apply Hsma|apply Hatr]; vm_compute; lia.
Defined.

(** ** Exit rule *)

(** C5, counterexample.  The short position opened on [short_series] at 150
    has its stop at 101.5 and its target at 198.5.  At the price 150 both
    [price >= stopLoss] and [price <= takeProfit] hold; [checkExit] answers
    STOP_LOSS, not TAKE_PROFIT. *)
Lemma checkExit_stop_loss_first :
  checkEntrySignal short_series = Some (pos_signal short_position)
  /\ (Fin 150 >=? stopLoss (pos_signal short_position))%num = true
  /\ (Fin 150 <=? takeProfit (pos_signal short_position))%num = true
  /\ checkExit short_position (Fin 150) = Exit STOP_LOSS (Fin 150)
  /\ checkExit short_position (Fin 150) <> Exit TAKE_PROFIT (Fin 150).
Proof.
  repeat split; try (vm_compute; reflexivity).
  vm_compute. discriminate.
Qed.

(** C5, amended.  The stop-loss test comes first.  On a LONG position
    [checkExit] returns STOP_LOSS exactly when [price <= stopLoss],
    TAKE_PROFIT exactly when that fails and [price >= takeProfit], and no
    exit exactly when both fail; on a SHORT position the comparisons are
    inverted.  The price of an exit is the current price. *)
Theorem checkExit_rule (pos : position) (price : num) :
  (type (pos_signal pos) = LONG ->
     let sl := (price <=? stopLoss (pos_signal pos))%num in
     let tp := (price >=? takeProfit (pos_signal pos))%num in
     (checkExit pos price = Exit STOP_LOSS price <-> sl = true)
     /\ (checkExit pos price = Exit TAKE_PROFIT price <-> sl = false /\ tp = true)
     /\ (checkExit pos price = NoExit <-> sl = false /\ tp = false))
  /\ (type (pos_signal pos) = SHORT ->
     let sl := (price >=? stopLoss (pos_signal pos))%num in
     let tp := (price <=? takeProfit (pos_signal pos))%num in
     (checkExit pos price = Exit STOP_LOSS price <-> sl = true)
     /\ (checkExit pos price = Exit TAKE_PROFIT price <-> sl = false /\ tp = true)
     /\ (checkExit pos price = NoExit <-> sl = false /\ tp = false))
  /\ (forall r p, checkExit pos price = Exit r p -> p = price).
Proof.
  unfold checkExit. repeat split; intros;
    repeat match goal with
      | H : type _ = _ |- _ => rewrite H in *; clear H
      | H : _ /\ _ |- _ => destruct H
      | H : ?b = _ |- context [if ?b then _ else _] => rewrite H
      end;
    try reflexivity;
    repeat match goal with
      | H : context [match type ?s with _ => _ end] |- _ => destruct (type s)
      | H : context [if ?b then _ else _] |- _ => destruct b
      end;
    congruence.
Qed.

(** On [short_position]: at 150 the stop-loss fires, at 100 the target
    does.  On [long_position] (entry 110, stop 100.1, target 119.9): at 100
    the stop-loss fires, at 120 the target does, at 110 nothing does. *)
Lemma checkExit_rule_witness :
  checkExit short_position (Fin 150) = Exit STOP_LOSS (Fin 150)
  /\ checkExit short_position (Fin 100) = Exit TAKE_PROFIT (Fin 100)
  /\ checkExit long_position (Fin 100) = Exit STOP_LOSS (Fin 100)
  /\ checkExit long_position (Fin 120) = Exit TAKE_PROFIT (Fin 120)
  /\ checkExit long_position (Fin 110) = NoExit.
Proof.
  destruct (checkExit_rule short_position (Fin 150)) as (_ & Hs150 & _).
  destruct (checkExit_rule short_position (Fin 100)) as (_ & Hs100 & _).
  destruct (checkExit_rule long_position (Fin 100)) as (Hl100 & _).
  destruct (checkExit_rule long_position (Fin 120)) as (Hl120 & _).
  destruct (checkExit_rule long_position (Fin 110)) as (Hl110 & _).
  split; [|split; [|split; [|split]]].
  - apply (proj1 (Hs150 eq_refl)). vm_compute; reflexivity.
  - apply (proj1 (proj2 (Hs100 eq_refl))). split; vm_compute; reflexivity.
  - apply (proj1 (Hl100 eq_refl)). vm_compute; reflexivity.
  - apply (proj1 (proj2 (Hl120 eq_refl))). split; vm_compute; reflexivity.
  - apply (proj2 (proj2 (Hl110 eq_refl))). split; vm_compute; reflexivity.
Defined.

(** ** Volume and momentum signal *)


Lemma idx_last_two (front : list candle) (p c : candle) :
  idx (front ++ [p; c]) (length (front ++ [p; c]) - 1) = c
  /\ idx (front ++ [p; c]) (length (front ++ [p; c]) - 2) = p.
Proof.
  unfold idx. rewrite length_app. simpl.
  replace (length front + 2 - 1)%nat with (S (length front)) by lia.
  replace (length front + 2 - 2)%nat with (length front) by lia.
  split; rewrite app_nth2 by lia.
  - replace (S (length front) - length front)%nat with 1%nat by lia. reflexivity.
  - rewrite Nat.sub_diag. reflexivity.
Qed.

(** ** Entry rule *)


(** ** Closing a position *)

Lemma updatePriceData_core (s : trading_state) (api : gateway) :
  exists s1,
    updatePriceData s api = (s1, [GetKlines])
    /\ balance s1 = balance s
    /\ inPosition s1 = inPosition s
    /\ currentPosition s1 = currentPosition s
    /\ trades s1 = trades s.
Proof.
  unfold updatePriceData.
  destruct (0 <? length (getKlines api))%nat; eexists; repeat split.
Qed.

Lemma openPosition_trades (PS LEV : num) s api sg :
  trades (fst (openPosition PS LEV s api sg)) = trades s.
Proof.
  unfold openPosition.
  destruct (_ <=? _)%num; [reflexivity|].
  destruct (placeMarketOrder api _ _); reflexivity.
Qed.

(** A step either leaves the history as it is or is a close that the venue
    accepted and appends one trade. *)
Lemma step_trades (PS LEV : num) s ev :
  trades (fst (step PS LEV s ev)) = trades s
  \/ (exists t o,
        api_closePosition (snd ev) = Some o
        /\ In ClosePosition (snd (step PS LEV s ev))
        /\ trades (fst (step PS LEV s ev)) = trades s ++ [t]).
Proof.
  destruct ev as [op api]. unfold step. simpl.
  destruct op as [| |sg|r p].
  - left. unfold initialize.
    destruct (updatePriceData_core
                {| balance := getBalance api; inPosition := inPosition s;
                   currentPosition := currentPosition s; trades := trades s;
                   priceData := priceData s; lastUpdate := lastUpdate s |} api)
      as (s1 & -> & _ & _ & _ & Ht).
    exact Ht.
  - unfold checkForSignals.
    destruct (updatePriceData_core s api) as (s1 & -> & _ & _ & _ & Ht).
    destruct (lastClose (priceData s1)) as [price|]; [|left; exact Ht].
    destruct (truthy price); simpl; [|left; exact Ht].
    destruct (inPosition s1) eqn:Hin, (currentPosition s1) as [pos|] eqn:Hcur;
      try (destruct (checkEntrySignal (priceData s1)) as [sg|];
           [|left; exact Ht];
           pose proof (openPosition_trades PS LEV s1 api sg) as Ho;
           destruct (openPosition PS LEV s1 api sg) as [s2 reqs2];
           left; simpl in *; congruence).
    destruct (checkExit pos price) as [r p|]; [|left; exact Ht].
    unfold closePosition. rewrite Hcur.
    destruct (api_closePosition api) as [o|]; [|left; exact Ht].
    right. eexists. exists o. simpl. rewrite Ht.
    split; [reflexivity|]. split; [right; left; reflexivity|reflexivity].
  - left. apply openPosition_trades.
  - unfold closePosition.
    destruct (api_closePosition api) as [o|]; [|left; reflexivity].
    destruct (currentPosition s) as [pos|]; [|left; reflexivity].
    right. eexists. exists o. simpl.
    split; [reflexivity|]. split; [left; reflexivity|reflexivity].
Qed.

Lemma run_app (PS LEV : num) s evs1 evs2 :
  run PS LEV s (evs1 ++ evs2) = run PS LEV (run PS LEV s evs1) evs2.
Proof. unfold run. apply fold_left_app. Qed.

(** C2.  When a position is open and the venue accepts the close, the
    realized profit is [(exitPrice - entryPrice) * quantity] for LONG and
    [(entryPrice - exitPrice) * quantity] for SHORT, times the leverage; one
    trade carrying that profit and the exit reason is appended, the profit is
    added to the balance, [currentPosition] becomes null and [inPosition]
    false; a cycle whose exit check fires is this transition with the price
    and reason of the check.  Every step of the engine leaves the history as
    it is or is such a close and appends one trade; along a run the history
    only grows at its end. *)
Theorem closePosition_accounting (POSITION_SIZE LEVERAGE : num) :
  (forall s api why exit pos o,
     inPosition s = true ->
     currentPosition s = Some pos ->
     api_closePosition api = Some o ->
     let raw :=
       match type (pos_signal pos) with
       | LONG => ((exit - entryPrice (pos_signal pos)) * quantity pos)%num
       | SHORT => ((entryPrice (pos_signal pos) - exit) * quantity pos)%num
       end in
     let realized := (raw * LEVERAGE)%num in
     exists t,
       closePosition LEVERAGE s api why exit
       = ({| balance := (balance s + realized)%num;
             inPosition := false;
             currentPosition := None;
             trades := trades s ++ [t];
             priceData := priceData s;
             lastUpdate := lastUpdate s |}, [ClosePosition])
       /\ profit t = realized
       /\ reason t = why
       /\ exitPrice t = exit
       /\ trade_type t = type (pos_signal pos)
       /\ trade_entryPrice t = entryPrice (pos_signal pos)
       /\ trade_quantity t = quantity pos)
  /\ (forall s api pos price why exit,
        let s1 := fst (updatePriceData s api) in
        inPosition s = true ->
        currentPosition s = Some pos ->
        lastClose (priceData s1) = Some price ->
        truthy price = true ->
        checkExit pos price = Exit why exit ->
        exit = price
        /\ checkForSignals POSITION_SIZE LEVERAGE s api
           = (fst (closePosition LEVERAGE s1 api why price),
              [GetKlines; ClosePosition]))
  /\ (forall s ev,
        trades (fst (step POSITION_SIZE LEVERAGE s ev)) = trades s
        \/ (exists t o,
              api_closePosition (snd ev) = Some o
              /\ In ClosePosition (snd (step POSITION_SIZE LEVERAGE s ev))
              /\ trades (fst (step POSITION_SIZE LEVERAGE s ev))
                 = trades s ++ [t]))
  /\ (forall s evs,
        exists appended,
          trades (run POSITION_SIZE LEVERAGE s evs) = trades s ++ appended
          /\ (length appended <= length evs)%nat).
Proof.
  split; [|split; [|split]].
  - intros s api why exit pos o Hin Hcur Hok raw realized.
    unfold closePosition. rewrite Hok, Hcur.
    eexists. split; [reflexivity|]. simpl. repeat split.
  - intros s api pos price why exit s1 Hin Hcur Hlast Htruthy Hexit.
    assert (Hp : exit = price).
    { unfold checkExit in Hexit.
      destruct (type (pos_signal pos));
        repeat match type of Hexit with
          | context [if ?b then _ else _] => destruct b
          end; congruence. }
    split; [exact Hp|]. subst exit.
    unfold checkForSignals. subst s1.
    destruct (updatePriceData_core s api) as (s1 & Hs1 & _ & Hi & Hc & _).
    rewrite Hs1 in *. simpl in *.
    rewrite Hlast, Htruthy, Hi, Hin, Hc, Hcur, Hexit. simpl.
    unfold closePosition.
    destruct (api_closePosition api); try rewrite Hc, Hcur; reflexivity.
  - intros s ev. apply step_trades.
  - intros s evs. revert s.
    induction evs as [|ev evs IH]; intro s.
    + exists []. simpl. rewrite app_nil_r. split; [reflexivity|lia].
    + change (ev :: evs) with ([ev] ++ evs). rewrite run_app.
      destruct (IH (run POSITION_SIZE LEVERAGE s [ev])) as (app2 & Happ2 & Hlen2).
      rewrite Happ2. unfold run at 1. simpl fold_left.
      destruct (step_trades POSITION_SIZE LEVERAGE s ev) as [Hsame|(t & o & _ & _ & Hadd)].
      * rewrite Hsame. exists app2. split; [reflexivity|simpl; lia].
      * rewrite Hadd. exists ([t] ++ app2).
        rewrite app_assoc. split; [reflexivity|simpl; lia].
Qed.

(** Closing [short_position] (entry 150, quantity 1) at 160 with leverage
    10 books a profit of -100; a cycle on [short_state] at the price 150
    is the close with reason STOP_LOSS. *)
Lemma closePosition_accounting_witness :
  (exists t,
     fst (closePosition (Fin 10) short_state (funded_gateway []) STOP_LOSS (Fin 160))
     = {| balance := (Fin 100 + (Fin 150 - Fin 160) * Fin 1 * Fin 10)%num;
          inPosition := false;
          currentPosition := None;
          trades := [t];
          priceData := short_series;
          lastUpdate := Some 0%Z |}
     /\ profit t = ((Fin 150 - Fin 160) * Fin 1 * Fin 10)%num)
  /\ checkForSignals (Fin 100) (Fin 10) short_state (funded_gateway [])
     = (fst (closePosition (Fin 10) short_state (funded_gateway [])
               STOP_LOSS (Fin 150)),
        [GetKlines; ClosePosition]).
Proof.
  destruct (closePosition_accounting (Fin 100) (Fin 10)) as (H1 & H2 & _).
  split.
  - destruct (H1 short_state (funded_gateway []) STOP_LOSS (Fin 160)
                short_position (mkOrder 9) eq_refl eq_refl eq_refl)
      as (t & Heq & Hprofit & _).
    exists t. rewrite Heq. split; [reflexivity|exact Hprofit].
  - apply (H2 short_state (funded_gateway []) short_position (Fin 150)
              STOP_LOSS (Fin 150));
      vm_compute; reflexivity.
Defined.

(** ** The position flag *)

Lemma openPosition_consistent (PS LEV : num) s api sg :
  consistent s -> consistent (fst (openPosition PS LEV s api sg)).
Proof.
  intro H. unfold openPosition.
  destruct (_ <=? _)%num; [exact H|].
  destruct (placeMarketOrder api _ _); [|exact H].
  right. simpl. split; [reflexivity|eexists; reflexivity].
Qed.

Lemma closePosition_consistent (LEV : num) s api why exit :
  consistent s -> consistent (fst (closePosition LEV s api why exit)).
Proof.
  intro H. unfold closePosition.
  destruct (api_closePosition api); [|exact H].
  destruct (currentPosition s); [|exact H].
  left. simpl. split; reflexivity.
Qed.

Lemma updatePriceData_consistent s api :
  consistent s -> consistent (fst (updatePriceData s api)).
Proof.
  intro H. destruct (updatePriceData_core s api) as (s1 & -> & _ & Hi & Hc & _).
  unfold consistent in *. simpl. rewrite Hi, Hc. exact H.
Qed.

Lemma step_consistent (PS LEV : num) s ev :
  consistent s -> consistent (fst (step PS LEV s ev)).
Proof.
  intro H. destruct ev as [op api]. unfold step. simpl.
  destruct op as [| |sg|r p].
  - unfold initialize.
    match goal with
    | |- context [updatePriceData ?s0 api] =>
        pose proof (updatePriceData_consistent s0 api H) as H1;
        destruct (updatePriceData s0 api) as [s1 reqs]
    end.
    exact H1.
  - unfold checkForSignals.
    pose proof (updatePriceData_consistent s api H) as H1.
    destruct (updatePriceData s api) as [s1 reqs]. simpl in H1.
    destruct (lastClose (priceData s1)) as [price|]; [|exact H1].
    destruct (truthy price); simpl; [|exact H1].
    destruct (inPosition s1) eqn:Hin, (currentPosition s1) as [pos|] eqn:Hcur;
      try (destruct (checkEntrySignal (priceData s1)) as [sg|]; [|exact H1];
           pose proof (openPosition_consistent PS LEV s1 api sg H1) as H2;
           destruct (openPosition PS LEV s1 api sg) as [s2 reqs2]; exact H2).
    destruct (checkExit pos price) as [r p|]; [|exact H1].
    pose proof (closePosition_consistent LEV s1 api r p H1) as H2.
    destruct (closePosition LEV s1 api r p) as [s2 reqs2]. exact H2.
  - apply openPosition_consistent. exact H.
  - apply closePosition_consistent. exact H.
Qed.

(** C3.  In the initial state and after every run of engine operations
    (initialisation, evaluation cycles, open and close transitions, in any
    order and whatever the venue answers), exactly one of
    {flat with [currentPosition] null, in position with [currentPosition]
    non-null} holds: [inPosition] is true if and only if [currentPosition]
    is non-null. *)
Theorem inPosition_iff_currentPosition (POSITION_SIZE LEVERAGE : num)
    (evs : list (operation * gateway)) :
  let s := run POSITION_SIZE LEVERAGE tradingState evs in
  ((inPosition s = false /\ currentPosition s = None)
   \/ (inPosition s = true /\ exists pos, currentPosition s = Some pos))
  /\ (inPosition s = true <-> currentPosition s <> None).
Proof.
  intro s.
  assert (H : consistent s).
  { subst s. generalize tradingState,
      (or_introl (conj eq_refl eq_refl) : consistent tradingState).
    induction evs as [|ev evs IH]; intros s0 H0; [exact H0|].
    change (ev :: evs) with ([ev] ++ evs). rewrite run_app.
    apply IH. apply step_consistent. exact H0. }
  split; [exact H|].
  destruct H as [[Hi Hc]|[Hi [pos Hc]]]; rewrite Hi, Hc; split; congruence.
Qed.

(** ** Venue failures *)




(** ** The levels of a LONG signal *)

Lemma abs_not_negative (x : num) : not_negative (abs x).
Proof. destruct x; simpl; trivial. apply Qabs_nonneg. Qed.

Lemma max2_not_negative (x y : num) :
  not_negative y -> not_negative (max2 x y).
Proof.
  unfold max2.
  destruct x as [a| | |], y as [b| | |]; simpl; trivial; try contradiction.
  intro Hb. destruct (Qltb a b) eqn:E; simpl; [exact Hb|].
  apply Qltb_ge in E. apply (Qle_trans _ _ _ Hb E).
Qed.

Lemma trueRange_not_negative (data : list candle) (i : nat) :
  not_negative (trueRange data i).
Proof.
  unfold trueRange, max. apply max2_not_negative, abs_not_negative.
Qed.

Lemma trueRanges_not_negative (data : list candle) :
  Forall not_negative (trueRanges data).
Proof.
  unfold trueRanges. apply Forall_forall. intros x Hx.
  apply in_map_iff in Hx. destruct Hx as (i & <- & _).
  apply trueRange_not_negative.
Qed.

Lemma add_not_negative (x y : num) :
  not_negative x -> not_negative y -> not_negative (x + y)%num.
Proof.
  destruct x as [a| | |], y as [b| | |]; simpl; trivial; try contradiction.
  intros Ha Hb. lra.
Qed.

Lemma sum_not_negative (l : list num) (acc : num) :
  Forall not_negative l -> not_negative acc ->
  not_negative (fold_left add l acc).
Proof.
  revert acc. induction l as [|x l IH]; intros acc Hl Hacc; simpl; [exact Hacc|].
  inversion Hl; subst. apply IH; [assumption|].
  apply add_not_negative; assumption.
Qed.

Lemma slice_last_Forall {A : Type} (P : A -> Prop) (n : nat) (l : list A) :
  Forall P l -> Forall P (slice_last n l).
Proof.
  intro H. destruct n; simpl; [exact H|].
  rewrite <- (firstn_skipn (length l - S n) l) in H.
  apply Forall_app in H. exact (proj2 H).
Qed.






(** ** Further properties of the indicators *)

Lemma not_negative_ltb (x : num) : not_negative x -> (x <? Fin 0)%num = false.
Proof.
  destruct x as [a| | |]; simpl; trivial; try contradiction.
  intro H. apply Qltb_ge. exact H.
Qed.

Lemma div_nonneg_not_negative (x : num) (d : Q) :
  0 <= d -> not_negative x -> not_negative (x / Fin d)%num.
Proof.
  intros Hd. destruct x as [a| | |]; simpl; trivial; try contradiction.
  - intro Ha. destruct (Qeq_bool d 0) eqn:E.
    + unfold signed_inf. destruct (a ?= 0) eqn:C; simpl; trivial.
      apply Qlt_alt in C. lra.
    + simpl. apply Qeq_bool_neq in E.
      apply Qle_shift_div_l; [|lra].
      destruct (Qle_lt_or_eq _ _ Hd) as [H|H]; [exact H|].
      exfalso. apply E. symmetry. exact H.
  - intros _. destruct (Qltb d 0) eqn:E; simpl; [|trivial].
    apply Qltb_lt in E. lra.
Qed.

Lemma of_nat_nonneg (n : nat) : 0 <= inject_Z (Z.of_nat n).
Proof.
  change 0 with (inject_Z 0). rewrite <- Zle_Qle. lia.
Qed.

Lemma calculateATR_not_negative_any (data : list candle) (period : nat)
    (v : num) :
  calculateATR data period = Some v -> not_negative v.
Proof.
  unfold calculateATR.
  destruct (length data <? period + 1)%nat; [discriminate|].
  intro H. injection H as <-.
  apply div_nonneg_not_negative; [apply of_nat_nonneg|].
  apply sum_not_negative; [|simpl; lra].
  apply slice_last_Forall, trueRanges_not_negative.
Qed.

(** X1.  Whatever the candles and the period, an ATR that is returned is
    never negative: it is a non-negative number, [+Infinity] or NaN, and
    the test [atr < 0] is false. *)
Theorem calculateATR_never_negative (data : list candle) (period : nat)
    (v : num) :
  calculateATR data period = Some v ->
  not_negative v /\ (v <? Fin 0)%num = false.
Proof.
  intro H. pose proof (calculateATR_not_negative_any data period v H) as Hnn.
  split; [exact Hnn|apply not_negative_ltb; exact Hnn].
Qed.

(** On [short_series] the 10-period ATR is 20. *)
Lemma calculateATR_never_negative_witness :
  calculateATR short_series 10 = Some (Fin 20.0)
  /\ (Fin 20.0 <? Fin 0)%num = false.
Proof.
  assert (H : calculateATR short_series 10 = Some (Fin 20.0))
    by (vm_compute; reflexivity).
  split; [exact H|].
  exact (proj2 (calculateATR_never_negative short_series 10 (Fin 20.0) H)).
Defined.

Lemma mul_nonneg_not_negative (x : num) (k : Q) :
  0 <= k -> not_negative x -> not_negative (x * Fin k)%num.
Proof.
  intro Hk. destruct x as [a| | |]; simpl; trivial; try contradiction.
  - intro Ha. apply Qmult_le_0_compat; assumption.
  - intros _. unfold signed_inf. destruct (k ?= 0) eqn:C; simpl; trivial.
    apply Qlt_alt in C. lra.
Qed.

Lemma sub_not_negative_not_above (c x : num) :
  not_negative x -> ((c - x) >? c)%num = false.
Proof.
  unfold gtb.
  destruct c as [cq| | |], x as [xq| | |]; simpl; trivial; try contradiction.
  intro Hx. apply Qltb_ge. lra.
Qed.

(** X3.  With a non-negative multiplier, the trailing stop is missing
    exactly when the series has fewer than [atrPeriod + 1] bars; when it is
    returned, its [atr] is the ATR of the series (never [null]) and its
    value, the last close minus the ATR times the multiplier, is never above
    the last close. *)
Theorem calculateATRTrailingStop_below_close (data : list candle)
    (atrPeriod : nat) (k : Q) :
  0 <= k ->
  (calculateATRTrailingStop data atrPeriod (Fin k) = None
     <-> (length data < atrPeriod + 1)%nat)
  /\ (forall st,
        calculateATRTrailingStop data atrPeriod (Fin k) = Some st ->
        let lastClose := close (idx data (length data - 1)) in
        exists a,
          atr st = Some a
          /\ calculateATR data atrPeriod = Some a
          /\ value st = (lastClose - a * Fin k)%num
          /\ (value st >? lastClose)%num = false).
Proof.
  intro Hk. unfold calculateATRTrailingStop.
  destruct (length data <? atrPeriod + 1)%nat eqn:E.
  - apply Nat.ltb_lt in E. split; [tauto|discriminate].
  - split.
    + split; [discriminate|]. apply Nat.ltb_ge in E. lia.
    + intros st H. injection H as <-. cbv zeta. simpl.
      destruct (calculateATR data atrPeriod) as [a|] eqn:Ha.
      * exists a. repeat split.
        apply sub_not_negative_not_above, mul_nonneg_not_negative; [exact Hk|].
        exact (calculateATR_not_negative_any data atrPeriod a Ha).
      * unfold calculateATR in Ha. rewrite E in Ha. discriminate.
Qed.

(** On [long_series] the stop is 107, below the last close 110; on its
    first ten bars there is none. *)
Lemma calculateATRTrailingStop_below_close_witness :
  calculateATRTrailingStop (firstn 10 long_series) 10 (Fin 3) = None
  /\ exists st,
       calculateATRTrailingStop long_series 10 (Fin 3) = Some st
       /\ (value st >? Fin 110)%num = false.
Proof.
  assert (H3 : 0 <= 3) by lra.
  split.
  - apply (proj1 (calculateATRTrailingStop_below_close
                    (firstn 10 long_series) 10 3 H3)).
    vm_compute. lia.
  - eexists. split; [vm_compute; reflexivity|].
    destruct (proj2 (calculateATRTrailingStop_below_close long_series 10 3 H3)
                _ eq_refl) as (a & _ & _ & _ & Hle).
    exact Hle.
Defined.

(** X4.  The momentum test divides by the previous close: with a negative
    previous close (both closes finite) the quotient is not above 0.002 and
    there is never a signal, whatever the volume and the move. *)
Theorem detectSmartMoneySignal_negative_previous_close
    (front : list candle) (previous current : candle) (pq cq : Q) :
  (20 <= length (front ++ [previous; current]))%nat ->
  close previous = Fin pq ->
  close current = Fin cq ->
  pq < 0 ->
  detectSmartMoneySignal (front ++ [previous; current]) = None.
Proof.
  intros Hlen Hp Hc Hneg.
  unfold detectSmartMoneySignal.
  apply Nat.ltb_ge in Hlen. rewrite Hlen.
  destruct (idx_last_two front previous current) as [-> ->].
  cbv zeta. rewrite Hp, Hc.
  assert (Hm : (abs (Fin cq - Fin pq) / Fin pq >? Fin 0.002)%num = false).
  { change (abs (Fin cq - Fin pq))%num with (Fin (Qabs (cq - pq))).
    assert (Ha : 0 <= Qabs (cq - pq)) by apply Qabs_nonneg.
    set (A := Qabs (cq - pq)) in *.
    unfold div. destruct (Qeq_bool pq 0) eqn:E.
    - apply Qeq_bool_iff in E. lra.
    - unfold gtb, ltb. apply Qltb_ge.
      assert (Hinv : / pq < 0).
      { apply Qnot_le_lt. intro Hle.
        assert (H1 : 0 <= / pq * (- pq)).
        { apply Qmult_le_0_compat; lra. }
        assert (H2 : / pq * pq == 1).
        { rewrite Qmult_comm. apply Qmult_inv_r. lra. }
        lra. }
      unfold Qdiv. set (B := / pq) in *.
      assert (H3 : 0 <= A * (- B)).
      { apply Qmult_le_0_compat; lra. }
      apply Qle_trans with 0; [lra|discriminate]. }
  rewrite Hm. rewrite !andb_false_r. reflexivity.
Qed.

(** A previous close of -1 followed by a close of 5 on ten times the
    volume: no signal. *)
Lemma detectSmartMoneySignal_negative_previous_close_witness :
  detectSmartMoneySignal
    (repeat (flat 0 1) 18 ++ [flat (-1) 1; flat 5 10]) = None.
Proof.
  assert (Hlen : (20 <= length (repeat (flat 0 1) 18 ++ [flat (-1) 1; flat 5 10]))%nat)
    by (vm_compute; lia).
  apply (detectSmartMoneySignal_negative_previous_close
           (repeat (flat 0 1) 18) (flat (-1) 1) (flat 5 10) (-1) 5
           Hlen eq_refl eq_refl).
  lra.
Defined.

(** ** Older bars do not matter *)

Lemma slice_last_app_old {A : Type} (n : nat) (old w : list A) :
  (1 <= n <= length w)%nat -> slice_last n (old ++ w) = slice_last n w.
Proof.
  intros [Hn Hw]. destruct n as [|n]; [lia|]. unfold slice_last.
  rewrite skipn_app, length_app.
  rewrite skipn_all2 by lia. simpl.
  f_equal. lia.
Qed.

Lemma idx_app_old (old w : list candle) (i : nat) :
  idx (old ++ w) (length old + i) = idx w i.
Proof.
  unfold idx. rewrite app_nth2 by lia. f_equal. lia.
Qed.

Lemma idx_last_app_old (old w : list candle) (k : nat) :
  (1 <= k <= length w)%nat ->
  idx (old ++ w) (length (old ++ w) - k) = idx w (length w - k).
Proof.
  intro H. rewrite length_app.
  replace (length old + length w - k)%nat with (length old + (length w - k))%nat
    by lia.
  apply idx_app_old.
Qed.

Lemma trueRange_app_old (old w : list candle) (j : nat) :
  (1 <= j)%nat -> trueRange (old ++ w) (length old + j) = trueRange w j.
Proof.
  intro Hj. unfold trueRange.
  replace (length old + j - 1)%nat with (length old + (j - 1))%nat by lia.
  rewrite !idx_app_old. reflexivity.
Qed.

Lemma trueRanges_app_old (old w : list candle) :
  (1 <= length w)%nat ->
  exists pre, trueRanges (old ++ w) = pre ++ trueRanges w.
Proof.
  intro Hw. unfold trueRanges. rewrite length_app.
  replace (length old + length w - 1)%nat
    with (length old + (length w - 1))%nat by lia.
  rewrite seq_app, map_app.
  eexists. f_equal.
  replace (1 + length old)%nat with (length old + 1)%nat by lia.
  assert (H : forall n a, (1 <= a)%nat ->
            map (trueRange (old ++ w)) (seq (length old + a) n)
            = map (trueRange w) (seq a n)).
  { induction n as [|n IH]; intros a Ha; simpl; [reflexivity|].
    f_equal.
    - apply trueRange_app_old. exact Ha.
    - replace (S (length old + a)) with (length old + S a)%nat by lia.
      apply IH. lia. }
  apply H. lia.
Qed.

Lemma calculateSMA_app_old (old recent : list candle) (period : nat) :
  (1 <= period <= length recent)%nat ->
  calculateSMA (old ++ recent) period = calculateSMA recent period.
Proof.
  intro H. unfold calculateSMA.
  rewrite slice_last_app_old by exact H.
  assert (E1 : (length (old ++ recent) <? period)%nat = false)
    by (apply Nat.ltb_ge; rewrite length_app; lia).
  assert (E2 : (length recent <? period)%nat = false)
    by (apply Nat.ltb_ge; lia).
  rewrite E1, E2. reflexivity.
Qed.

Lemma calculateATR_app_old (old recent : list candle) (period : nat) :
  (1 <= period)%nat -> (period + 1 <= length recent)%nat ->
  calculateATR (old ++ recent) period = calculateATR recent period.
Proof.
  intros Hp H. unfold calculateATR.
  assert (E1 : (length (old ++ recent) <? period + 1)%nat = false)
    by (apply Nat.ltb_ge; rewrite length_app; lia).
  assert (E2 : (length recent <? period + 1)%nat = false)
    by (apply Nat.ltb_ge; lia).
  rewrite E1, E2.
  destruct (trueRanges_app_old old recent) as (pre & ->); [lia|].
  rewrite slice_last_app_old; [reflexivity|].
  rewrite trueRanges_length. lia.
Qed.

Lemma calculateATRTrailingStop_app_old (old recent : list candle)
    (period : nat) (k : num) :
  (1 <= period)%nat -> (period + 1 <= length recent)%nat ->
  calculateATRTrailingStop (old ++ recent) period k
  = calculateATRTrailingStop recent period k.
Proof.
  intros Hp H. unfold calculateATRTrailingStop.
  assert (E1 : (length (old ++ recent) <? period + 1)%nat = false)
    by (apply Nat.ltb_ge; rewrite length_app; lia).
  assert (E2 : (length recent <? period + 1)%nat = false)
    by (apply Nat.ltb_ge; lia).
  rewrite E1, E2, calculateATR_app_old by assumption.
  rewrite idx_last_app_old by lia. reflexivity.
Qed.

Lemma detectSmartMoneySignal_app_old (old recent : list candle) :
  (20 <= length recent)%nat ->
  detectSmartMoneySignal (old ++ recent) = detectSmartMoneySignal recent.
Proof.
  intro H. unfold detectSmartMoneySignal.
  assert (E1 : (length (old ++ recent) <? 20)%nat = false)
    by (apply Nat.ltb_ge; rewrite length_app; lia).
  assert (E2 : (length recent <? 20)%nat = false)
    by (apply Nat.ltb_ge; lia).
  rewrite E1, E2.
  rewrite !idx_last_app_old by lia.
  rewrite slice_last_app_old by lia. reflexivity.
Qed.

(** X5.  Each indicator reads a trailing window only: bars older than the
    window do not change its result.  The moving average reads the last
    [period] bars, the ATR and the trailing stop the last [period + 1], the
    momentum signal the last 20. *)
Theorem indicators_read_trailing_window (old recent : list candle)
    (period : nat) (k : num) :
  (1 <= period)%nat ->
  ((period <= length recent)%nat ->
     calculateSMA (old ++ recent) period = calculateSMA recent period)
  /\ ((period + 1 <= length recent)%nat ->
     calculateATR (old ++ recent) period = calculateATR recent period
     /\ calculateATRTrailingStop (old ++ recent) period k
        = calculateATRTrailingStop recent period k)
  /\ ((20 <= length recent)%nat ->
     detectSmartMoneySignal (old ++ recent) = detectSmartMoneySignal recent).
Proof.
  intro Hp. split; [|split].
  - intro H. apply calculateSMA_app_old. lia.
  - intro H. split.
    + apply calculateATR_app_old; assumption.
    + apply calculateATRTrailingStop_app_old; assumption.
  - apply detectSmartMoneySignal_app_old.
Qed.

(** X6.  The entry decision reads the last 100 bars only: on a series of
    100 bars or more, dropping everything before the last 100 (the engine
    fetches 150) gives the same signal. *)
Theorem checkEntrySignal_reads_last_100 (old recent : list candle) :
  (100 <= length recent)%nat ->
  checkEntrySignal (old ++ recent) = checkEntrySignal recent.
Proof.
  intro H. unfold checkEntrySignal.
  assert (E1 : (length (old ++ recent) <? 100)%nat = false)
    by (apply Nat.ltb_ge; rewrite length_app; lia).
  assert (E2 : (length recent <? 100)%nat = false)
    by (apply Nat.ltb_ge; lia).
  rewrite E1, E2.
  rewrite calculateSMA_app_old by (unfold MA_PERIOD; lia).
  rewrite calculateATRTrailingStop_app_old by (unfold ATR_PERIOD; lia).
  rewrite detectSmartMoneySignal_app_old by lia.
  rewrite idx_last_app_old by lia. reflexivity.
Qed.

(** Fifty older bars in front of [long_series] change nothing. *)
Lemma indicators_read_trailing_window_witness :
  calculateSMA (repeat (flat 7 3) 50 ++ long_series) 100
  = calculateSMA long_series 100
  /\ calculateATR (repeat (flat 7 3) 50 ++ long_series) 10
     = calculateATR long_series 10
  /\ detectSmartMoneySignal (repeat (flat 7 3) 50 ++ long_series)
     = detectSmartMoneySignal long_series.
Proof.
  split; [|split].
  - apply (indicators_read_trailing_window (repeat (flat 7 3) 50) long_series
             100 (Fin 3)); vm_compute; lia.
  - apply (indicators_read_trailing_window (repeat (flat 7 3) 50) long_series
             10 (Fin 3)); vm_compute; lia.
  - apply (indicators_read_trailing_window (repeat (flat 7 3) 50) long_series
             10 (Fin 3)); vm_compute; lia.
Defined.

Lemma checkEntrySignal_reads_last_100_witness :
  checkEntrySignal (repeat (flat 7 3) 50 ++ long_series) = Some long_signal.
Proof.
  rewrite (checkEntrySignal_reads_last_100 (repeat (flat 7 3) 50) long_series)
    by (vm_compute; lia).
  vm_compute. reflexivity.
Defined.

(** ** Further properties of the sizing *)

(** X18.  A balance of 0, which is also what a failed balance query
    returns, aborts the entry before any order whenever the position size,
    the leverage and the entry price are finite and the entry price is not
    0. *)
Theorem openPosition_without_balance (ps lev e : Q) (s : trading_state)
    (api : gateway) (sg : signal) :
  getBalance api = Fin 0 ->
  entryPrice sg = Fin e ->
  ~ e == 0 ->
  openPosition (Fin ps) (Fin lev) s api sg = (s, [GetBalance]).
Proof.
  intros Hb He Hne. unfold openPosition, orderQuantity. rewrite Hb, He.
  cbn [mul]. cbn [div].
  change (Qeq_bool 100 0) with false. cbv iota. cbn [mul div].
  destruct (Qeq_bool e 0) eqn:E0.
  { apply Qeq_bool_iff in E0. contradiction. }
  cbn [mul floor div]. change (Qeq_bool 10 0) with false. cbv iota.
  assert (Hz : Qfloor (0 * ps / 100 * lev / e * 10) = 0%Z).
  { rewrite (Qfloor_comp _ 0); [reflexivity|].
    unfold Qdiv. ring. }
  rewrite Hz. reflexivity.
Qed.

(** The signal of [long_series] against a venue that reports no balance. *)
Lemma openPosition_without_balance_witness :
  openPosition (Fin 100) (Fin 10) tradingState broke_gateway long_signal
  = (tradingState, [GetBalance]).
Proof.
  apply (openPosition_without_balance 100 10 110); [reflexivity|reflexivity|].
  intro H. discriminate H.
Defined.

(** ** Further properties of the engine *)

(** X10.  A cycle sends the candle query and then at most one order-placing
    action: nothing, a close, a balance query alone (undersized entry), a
    market order the venue rejects, or a market order followed by its stop
    order on the opposite side for the same quantity.  A close is only sent
    from a state in position, a market order only from a state that is
    not. *)
Theorem checkForSignals_requests (POSITION_SIZE LEVERAGE : num)
    (s : trading_state) (api : gateway) :
  let reqs := snd (checkForSignals POSITION_SIZE LEVERAGE s api) in
  cycle_requests reqs
  /\ (In ClosePosition reqs ->
      inPosition s = true /\ currentPosition s <> None)
  /\ (forall sd q, In (PlaceMarketOrder sd q) reqs ->
      inPosition s = false \/ currentPosition s = None).
Proof.
  cbv zeta. unfold checkForSignals.
  destruct (updatePriceData_core s api) as (s1 & -> & _ & Hi & Hc & _).
  destruct (lastClose (priceData s1)) as [price|];
    [|simpl; split; [constructor|split;
        [intros [H|[]]; discriminate|intros sd q [H|[]]; discriminate]]].
  destruct (truthy price); simpl;
    [|split; [constructor|split;
        [intros [H|[]]; discriminate|intros sd q [H|[]]; discriminate]]].
  rewrite <- Hi, <- Hc.
  destruct (inPosition s1) eqn:Hin, (currentPosition s1) as [pos|] eqn:Hcur;
    try (destruct (checkEntrySignal (priceData s1)) as [sg|];
         [unfold openPosition;
          destruct (_ <=? _)%num;
          [|destruct (placeMarketOrder api _ _)]|];
         simpl; (split; [constructor|]);
         (split; [intro H; repeat (destruct H as [H|H]; try discriminate);
                  contradiction|]);
         intros sd q _; auto).
  destruct (checkExit pos price) as [r p|].
  - unfold closePosition.
    destruct (api_closePosition api); rewrite ?Hcur; simpl;
      (split; [constructor|]);
      (split; [intros _; split; [reflexivity|discriminate]|]);
      intros sd q H; repeat (destruct H as [H|H]; try discriminate);
      contradiction.
  - simpl. split; [constructor|].
    split; [intros [H|[]]; discriminate|intros sd q [H|[]]; discriminate].
Qed.

(** X11.  From the initial state on, [priceData] is empty exactly when
    [lastUpdate] is [null]; and no operation ever empties [priceData]: once
    candles have arrived, a failed fetch keeps the old ones. *)
Theorem priceData_kept (POSITION_SIZE LEVERAGE : num) :
  (forall evs,
     let s := run POSITION_SIZE LEVERAGE tradingState evs in
     priceData s = [] <-> lastUpdate s = None)
  /\ (forall s ev,
        priceData s <> [] ->
        priceData (fst (step POSITION_SIZE LEVERAGE s ev)) <> []).
Proof.
  assert (Hupd : forall s api,
            let s1 := fst (updatePriceData s api) in
            ((priceData s = [] <-> lastUpdate s = None) ->
             (priceData s1 = [] <-> lastUpdate s1 = None))
            /\ (priceData s <> [] -> priceData s1 <> [])
            /\ balance s1 = balance s).
  { intros s api. unfold updatePriceData.
    destruct (getKlines api) as [|k ks] eqn:Hk; simpl.
    - repeat split; tauto.
    - repeat split; intros; congruence. }
  assert (Hopen : forall s api sg,
            priceData (fst (openPosition POSITION_SIZE LEVERAGE s api sg))
            = priceData s
            /\ lastUpdate (fst (openPosition POSITION_SIZE LEVERAGE s api sg))
               = lastUpdate s).
  { intros. unfold openPosition.
    destruct (_ <=? _)%num; [split; reflexivity|].
    destruct (placeMarketOrder api _ _); split; reflexivity. }
  assert (Hclose : forall s api r p,
            priceData (fst (closePosition LEVERAGE s api r p)) = priceData s
            /\ lastUpdate (fst (closePosition LEVERAGE s api r p))
               = lastUpdate s).
  { intros. unfold closePosition.
    destruct (api_closePosition api), (currentPosition s); split; reflexivity. }
  assert (Hstep : forall s ev,
            let s' := fst (step POSITION_SIZE LEVERAGE s ev) in
            ((priceData s = [] <-> lastUpdate s = None) ->
             (priceData s' = [] <-> lastUpdate s' = None))
            /\ (priceData s <> [] -> priceData s' <> [])).
  { intros s [op api]. unfold step. simpl.
    destruct op as [| |sg|r p].
    - unfold initialize.
      match goal with
      | |- context [updatePriceData ?s0 api] =>
          pose proof (Hupd s0 api) as H;
          destruct (updatePriceData s0 api) as [s1 reqs]
      end.
      simpl in *. tauto.
    - unfold checkForSignals.
      pose proof (Hupd s api) as H.
      destruct (updatePriceData s api) as [s1 reqs]. simpl in H.
      destruct H as (H1 & H2 & _).
      destruct (lastClose (priceData s1)) as [price|]; [|simpl; tauto].
      destruct (truthy price); simpl; [|tauto].
      destruct (inPosition s1), (currentPosition s1) as [pos|];
        try (destruct (checkEntrySignal (priceData s1)) as [sg|];
             [|simpl; tauto];
             destruct (Hopen s1 api sg) as [Hp Hl];
             destruct (openPosition POSITION_SIZE LEVERAGE s1 api sg)
               as [s2 reqs2];
             simpl in *; rewrite Hp, Hl; tauto).
      destruct (checkExit pos price) as [r p|]; [|simpl; tauto].
      destruct (Hclose s1 api r p) as [Hp Hl].
      destruct (closePosition LEVERAGE s1 api r p) as [s2 reqs2].
      simpl in *. rewrite Hp, Hl. tauto.
    - destruct (Hopen s api sg) as [Hp Hl]. rewrite Hp, Hl. tauto.
    - destruct (Hclose s api r p) as [Hp Hl]. rewrite Hp, Hl. tauto. }
  split.
  - intros evs. cbv zeta.
    generalize tradingState,
      (conj (fun _ => eq_refl) (fun _ => eq_refl)
        : priceData tradingState = [] <-> lastUpdate tradingState = None).
    induction evs as [|ev evs IH]; intros s0 H0; [exact H0|].
    change (ev :: evs) with ([ev] ++ evs). rewrite run_app.
    apply IH. apply (Hstep s0 ev). exact H0.
  - intros s ev. apply (Hstep s ev).
Qed.

(** After a cycle that received candles, one that receives none keeps
    them. *)
Lemma priceData_kept_witness :
  priceData
    (fst (step (Fin 100) (Fin 10)
            (fst (step (Fin 100) (Fin 10) tradingState
                    (CheckForSignals, no_fill_gateway)))
            (CheckForSignals, funded_gateway [])))
  <> [].
Proof.
  apply (proj2 (priceData_kept (Fin 100) (Fin 10))).
  vm_compute. discriminate.
Defined.

(** The cycle on [short_state] sends a close; it started in position. *)
Lemma checkForSignals_requests_witness :
  snd (checkForSignals (Fin 100) (Fin 10) short_state (funded_gateway []))
  = [GetKlines; ClosePosition]
  /\ inPosition short_state = true.
Proof.
  split; [vm_compute; reflexivity|].
  destruct (checkForSignals_requests (Fin 100) (Fin 10) short_state
              (funded_gateway [])) as (_ & H & _).
  apply H. vm_compute. right. left. reflexivity.
Defined.

(** What one step does to the balance and the history together. *)
Lemma step_balance (PS LEV : num) s ev :
  fst ev <> Initialize ->
  (trades (fst (step PS LEV s ev)) = trades s
   /\ balance (fst (step PS LEV s ev)) = balance s)
  \/ (exists t,
        trades (fst (step PS LEV s ev)) = trades s ++ [t]
        /\ balance (fst (step PS LEV s ev)) = (balance s + profit t)%num
        /\ profit_consistent LEV t).
Proof.
  destruct ev as [op api]. unfold step. simpl. intro Hop.
  assert (Hopen : forall s1 sg,
            trades (fst (openPosition PS LEV s1 api sg)) = trades s1
            /\ balance (fst (openPosition PS LEV s1 api sg)) = balance s1).
  { intros. unfold openPosition.
    destruct (_ <=? _)%num; [split; reflexivity|].
    destruct (placeMarketOrder api _ _); split; reflexivity. }
  assert (Hclose : forall s1 r p,
            (trades (fst (closePosition LEV s1 api r p)) = trades s1
             /\ balance (fst (closePosition LEV s1 api r p)) = balance s1)
            \/ (exists t,
                  trades (fst (closePosition LEV s1 api r p)) = trades s1 ++ [t]
                  /\ balance (fst (closePosition LEV s1 api r p))
                     = (balance s1 + profit t)%num
                  /\ profit_consistent LEV t)).
  { intros. unfold closePosition.
    destruct (api_closePosition api); [|left; split; reflexivity].
    destruct (currentPosition s1) as [pos|]; [|left; split; reflexivity].
    right. eexists. simpl. split; [reflexivity|]. split; [reflexivity|].
    unfold profit_consistent, realizedProfit. simpl. reflexivity. }
  destruct op as [| |sg|r p]; [congruence| |apply or_introl, Hopen|apply Hclose].
  unfold checkForSignals.
  destruct (updatePriceData_core s api) as (s1 & -> & Hb & _ & _ & Ht).
  rewrite <- Hb, <- Ht.
  destruct (lastClose (priceData s1)) as [price|]; [|left; split; reflexivity].
  destruct (truthy price); simpl; [|left; split; reflexivity].
  destruct (inPosition s1), (currentPosition s1) as [pos|];
    try (destruct (checkEntrySignal (priceData s1)) as [sg|];
         [|left; split; reflexivity];
         pose proof (Hopen s1 sg) as Ho;
         destruct (openPosition PS LEV s1 api sg) as [s2 reqs2];
         left; exact Ho).
  destruct (checkExit pos price) as [r p|]; [|left; split; reflexivity].
  pose proof (Hclose s1 r p) as Hcl.
  destruct (closePosition LEV s1 api r p) as [s2 reqs2]. exact Hcl.
Qed.

(** X13.  Every trade in the history of a run from the initial state
    carries the profit its own fields give:
    [(exitPrice - entryPrice) * quantity] for LONG, mirrored for SHORT,
    times the leverage. *)
Theorem trades_profit_consistent (POSITION_SIZE LEVERAGE : num)
    (evs : list (operation * gateway)) :
  Forall (profit_consistent LEVERAGE)
    (trades (run POSITION_SIZE LEVERAGE tradingState evs)).
Proof.
  assert (H : forall s,
            Forall (profit_consistent LEVERAGE) (trades s) ->
            Forall (profit_consistent LEVERAGE)
              (trades (run POSITION_SIZE LEVERAGE s evs))).
  { induction evs as [|ev evs IH]; intros s Hs; [exact Hs|].
    change (ev :: evs) with ([ev] ++ evs). rewrite run_app.
    apply IH. unfold run. simpl fold_left.
    destruct (step_trades POSITION_SIZE LEVERAGE s ev)
      as [->|(t & o & _ & _ & Ht)]; [exact Hs|].
    destruct ev as [op api].
    destruct op as [| |sg|r p].
    - exfalso. revert Ht. unfold step, initialize. simpl.
      match goal with
      | |- context [updatePriceData ?s0 api] =>
          destruct (updatePriceData_core s0 api) as (s1 & -> & _ & _ & _ & Hts)
      end.
      simpl. rewrite Hts. simpl. intro Ht.
      apply (f_equal (@length trade)) in Ht. rewrite length_app in Ht.
      simpl in Ht. lia.
    - destruct (step_balance POSITION_SIZE LEVERAGE s (CheckForSignals, api))
        as [[Ht1 _]|(t' & Ht1 & _ & Hc)]; [discriminate| |].
      + rewrite Ht1. exact Hs.
      + rewrite Ht1. apply Forall_app. split; [exact Hs|].
        constructor; [exact Hc|constructor].
    - destruct (step_balance POSITION_SIZE LEVERAGE s (OpenPosition sg, api))
        as [[Ht1 _]|(t' & Ht1 & _ & Hc)]; [discriminate| |].
      + rewrite Ht1. exact Hs.
      + rewrite Ht1. apply Forall_app. split; [exact Hs|].
        constructor; [exact Hc|constructor].
    - destruct (step_balance POSITION_SIZE LEVERAGE s (ClosePositionOp r p, api))
        as [[Ht1 _]|(t' & Ht1 & _ & Hc)]; [discriminate| |].
      + rewrite Ht1. exact Hs.
      + rewrite Ht1. apply Forall_app. split; [exact Hs|].
        constructor; [exact Hc|constructor]. }
  apply H. constructor.
Qed.

(** X14.  While the venue answers [null] to the close request (a failure,
    or no position left at the venue, for instance after the stop order
    filled there), cycles change neither the balance, nor the position, nor
    the history: the engine stays in position with the position it
    holds. *)
Theorem unanswered_close_keeps_position (POSITION_SIZE LEVERAGE : num)
    (s : trading_state) (pos : position) (apis : list gateway) :
  inPosition s = true ->
  currentPosition s = Some pos ->
  Forall (fun api => api_closePosition api = None) apis ->
  core (run POSITION_SIZE LEVERAGE s (cycles apis)) = core s.
Proof.
  intros Hin Hcur Hapis. revert s Hin Hcur.
  induction apis as [|api apis IH]; intros s Hin Hcur; [reflexivity|].
  inversion Hapis as [|? ? Hnone Hrest]; subst.
  unfold cycles. simpl map.
  change ((CheckForSignals, api) :: map (fun a => (CheckForSignals, a)) apis)
    with ([(CheckForSignals, api)] ++ cycles apis).
  rewrite run_app.
  assert (Hstep : core (run POSITION_SIZE LEVERAGE s [(CheckForSignals, api)])
                  = core s).
  { unfold run, step. simpl. unfold checkForSignals.
    destruct (updatePriceData_core s api) as (s1 & -> & Hb & Hi & Hc & Ht).
    assert (Hcore : core s1 = core s) by (unfold core; congruence).
    destruct (lastClose (priceData s1)) as [price|]; [|exact Hcore].
    destruct (truthy price); simpl; [|exact Hcore].
    rewrite Hi, Hin, Hc, Hcur.
    destruct (checkExit pos price) as [r p|]; [|exact Hcore].
    unfold closePosition. rewrite Hnone. exact Hcore. }
  rewrite <- Hstep.
  unfold core in Hstep. injection Hstep as Hb' Hi' Hc' Ht'.
  apply (IH Hrest); unfold run; simpl fold_left; congruence.
Qed.

(** Three cycles on [short_state] against a venue that answers no close. *)
Lemma unanswered_close_keeps_position_witness :
  core (run (Fin 100) (Fin 10) short_state
          (cycles [no_fill_gateway; no_stop_gateway; no_fill_gateway]))
  = core short_state.
Proof.
  apply (unanswered_close_keeps_position (Fin 100) (Fin 10) short_state
           short_position); try reflexivity.
  repeat constructor.
Defined.

(** X17.  A failed candle fetch (no candles) does not skip the cycle: the
    engine decides on the candles it already holds.  The requests it sends
    and the balance, position and history it ends with are those of a cycle
    that was handed the stored candles again; the stored candles stay. *)
Theorem checkForSignals_on_stored_candles (POSITION_SIZE LEVERAGE : num)
    (s : trading_state) (api : gateway) :
  getKlines api = [] ->
  let r := checkForSignals POSITION_SIZE LEVERAGE s api in
  let r' := checkForSignals POSITION_SIZE LEVERAGE s
              (with_klines api (priceData s)) in
  snd r = snd r'
  /\ core (fst r) = core (fst r')
  /\ priceData (fst r) = priceData s.
Proof.
  intro Hk. cbv zeta. unfold checkForSignals, updatePriceData, core.
  rewrite Hk. destruct s as [bal inpos cur hist pd lu].
  simpl getKlines. simpl length. cbn [priceData balance inPosition
    currentPosition trades lastUpdate].
  destruct (0 <? length pd)%nat; simpl;
    destruct (lastClose pd) as [price|];
      try (repeat split; reflexivity);
    destruct (truthy price); simpl; try (repeat split; reflexivity);
    destruct inpos, cur as [pos|];
    try (destruct (checkEntrySignal pd) as [sg|];
         [|repeat split; reflexivity];
         unfold openPosition; simpl;
         destruct (_ <=? _)%num; [repeat split; reflexivity|];
         destruct (placeMarketOrder api _ _); repeat split; reflexivity);
    (destruct (checkExit pos price) as [rsn p|]; [|repeat split; reflexivity]);
    unfold closePosition; simpl;
    destruct (api_closePosition api); repeat split; reflexivity.
Qed.

(** [short_state] holds [short_series]; with no new candles the cycle
    still closes the position. *)
Lemma checkForSignals_on_stored_candles_witness :
  snd (checkForSignals (Fin 100) (Fin 10) short_state (funded_gateway []))
  = snd (checkForSignals (Fin 100) (Fin 10) short_state
           (with_klines (funded_gateway []) short_series))
  /\ inPosition
       (fst (checkForSignals (Fin 100) (Fin 10) short_state (funded_gateway [])))
     = false.
Proof.
  destruct (checkForSignals_on_stored_candles (Fin 100) (Fin 10) short_state
              (funded_gateway []) eq_refl) as (H & _).
  split; [exact H|]. vm_compute. reflexivity.
Defined.

(** ** The venue's close request *)

(** X15.  [AsterDexAPI.closePosition] sends no order and answers [null]
    when the venue reports no position or an amount of 0.  For a finite
    non-zero amount it sends one market order for the absolute amount, a
    positive quantity, on the opposite side (SELL for a positive amount,
    BUY for a negative one), and answers what that order answers. *)
Theorem api_closePosition_offsets (a : Q)
    (placeMarketOrder : side -> num -> option order) :
  AsterDexAPI.closePosition None placeMarketOrder = (None, None)
  /\ (a == 0 ->
      AsterDexAPI.closePosition (Some (mkVenuePosition (Fin a))) placeMarketOrder
      = (None, None))
  /\ (0 < a ->
      AsterDexAPI.closePosition (Some (mkVenuePosition (Fin a))) placeMarketOrder
      = (placeMarketOrder SELL (Fin (Qabs a)), Some (SELL, Fin (Qabs a)))
      /\ 0 < Qabs a)
  /\ (a < 0 ->
      AsterDexAPI.closePosition (Some (mkVenuePosition (Fin a))) placeMarketOrder
      = (placeMarketOrder BUY (Fin (Qabs a)), Some (BUY, Fin (Qabs a)))
      /\ 0 < Qabs a).
Proof.
  unfold AsterDexAPI.closePosition. simpl positionAmt.
  unfold strict_eqb, gtb, ltb, abs.
  split; [reflexivity|]. split; [|split].
  - intro H. apply Qeq_bool_iff in H. rewrite H. reflexivity.
  - intro H.
    destruct (Qeq_bool a 0) eqn:E; [apply Qeq_bool_iff in E; lra|].
    destruct (Qltb 0 a) eqn:E1; [|apply Qltb_ge in E1; lra].
    split; [reflexivity|]. rewrite Qabs_pos; lra.
  - intro H.
    destruct (Qeq_bool a 0) eqn:E; [apply Qeq_bool_iff in E; lra|].
    destruct (Qltb 0 a) eqn:E1; [apply Qltb_lt in E1; lra|].
    split; [reflexivity|]. rewrite Qabs_neg; lra.
Qed.

(** A short position of 9 at the venue is closed by buying 9. *)
Lemma api_closePosition_offsets_witness :
  AsterDexAPI.closePosition (Some (mkVenuePosition (Fin (-9))))
    (fun _ _ => Some (mkOrder 9))
  = (Some (mkOrder 9), Some (BUY, Fin (Qabs (-9)))).
Proof.
  destruct (api_closePosition_offsets (-9) (fun _ _ => Some (mkOrder 9)))
    as (_ & _ & _ & H).
  apply H. reflexivity.
Defined.

(** ** The trade report *)

(** X16.  In the report of [/api/trades] the number of winning trades never
    exceeds the number of trades, and the win rate (before it is printed
    with one decimal) is a finite number between 0 and 100, 0 when there
    are no trades. *)
Theorem trade_report_bounds (ts : list trade) :
  (winningTrades ts <= length ts)%nat
  /\ (exists q : Q, winRate ts = Fin q /\ 0 <= q <= 100)
  /\ (ts = [] -> winRate ts = Fin 0).
Proof.
  assert (Hw : (winningTrades ts <= length ts)%nat).
  { unfold winningTrades. apply filter_length_le. }
  split; [exact Hw|]. split; [|intros ->; reflexivity].
  unfold winRate.
  destruct (0 <? length ts)%nat eqn:E;
    [|exists 0; split; [reflexivity|split; lra]].
  apply Nat.ltb_lt in E. unfold of_nat. cbn [div mul].
  assert (Hn : 0 < inject_Z (Z.of_nat (length ts))).
  { change 0 with (inject_Z 0). rewrite <- Zlt_Qlt. lia. }
  assert (Hw0 : 0 <= inject_Z (Z.of_nat (winningTrades ts))).
  { apply of_nat_nonneg. }
  assert (Hwn : inject_Z (Z.of_nat (winningTrades ts))
                <= inject_Z (Z.of_nat (length ts))).
  { rewrite <- Zle_Qle. lia. }
  destruct (Qeq_bool (inject_Z (Z.of_nat (length ts))) 0) eqn:E0.
  { apply Qeq_bool_iff in E0. lra. }
  cbn [mul]. eexists. split; [reflexivity|].
  set (w := inject_Z (Z.of_nat (winningTrades ts))) in *.
  set (n := inject_Z (Z.of_nat (length ts))) in *.
  assert (H0 : 0 <= w / n).
  { apply Qle_shift_div_l; [exact Hn|]. lra. }
  assert (H1 : w / n <= 1).
  { apply Qle_shift_div_r; [exact Hn|]. lra. }
  set (r := w / n) in *. clearbody r w n. split; lra.
Qed.

(** Without trades the report shows no winner and a win rate of 0. *)
Lemma trade_report_bounds_witness :
  winRate [] = Fin 0 /\ (winningTrades [] <= 0)%nat.
Proof.
  destruct (trade_report_bounds []) as (Hw & _ & H0).
  split; [apply H0; reflexivity|exact Hw].
Defined.

(** ** The program over binary64: numbers *)

(** A comparison decides one of less, equal, greater or unordered: the
    strict tests exclude each other, and each excludes the opposite weak
    test. *)
Lemma b64_gtb_not_ltb (x y : float) :
  B64.gtb x y = true -> B64.ltb x y = false.
Proof.
  unfold B64.gtb, B64.ltb. destruct (x ?= y)%float; congruence.
Qed.

Lemma b64_ltb_not_geb (x y : float) :
  B64.ltb x y = true -> B64.geb x y = false.
Proof.
  unfold B64.ltb, B64.geb. destruct (x ?= y)%float; congruence.
Qed.

(** [Math.floor] and [Math.max] on sample values: negative values round
    down, integers and infinities stay, [+0] is above [-0] and NaN
    spreads. *)
Example b64_floor_max_samples :
  B64.floor 90.9 = 90%float
  /\ B64.floor (-0.5) = (-1)%float
  /\ B64.floor 0.01 = 0%float
  /\ B64.floor 4503599627370496 = 4503599627370496%float
  /\ B64.floor infinity = infinity
  /\ B64.max 0 (-0) (-0) = 0%float
  /\ B64.max (-0) 0 (-1) = 0%float
  /\ B64.isNaN (B64.max 1 PrimFloat.nan 2) = true.
Proof. repeat split; vm_compute; reflexivity. Qed.

(** ** The program over binary64: lists and windows *)

Lemma b64_idx_last (front : list B64.candle) (c : B64.candle) :
  B64.idx (front ++ [c]) (length (front ++ [c]) - 1) = c.
Proof.
  unfold B64.idx. rewrite length_app. simpl.
  replace (length front + 1 - 1)%nat with (length front) by lia.
  rewrite app_nth2 by lia. rewrite Nat.sub_diag. reflexivity.
Qed.

Lemma b64_idx_last_two (front : list B64.candle) (p c : B64.candle) :
  B64.idx (front ++ [p; c]) (length (front ++ [p; c]) - 1) = c
  /\ B64.idx (front ++ [p; c]) (length (front ++ [p; c]) - 2) = p.
Proof.
  unfold B64.idx. rewrite length_app. simpl.
  replace (length front + 2 - 1)%nat with (S (length front)) by lia.
  replace (length front + 2 - 2)%nat with (length front) by lia.
  split.
  - rewrite app_nth2 by lia.
    replace (S (length front) - length front)%nat with 1%nat by lia.
    reflexivity.
  - rewrite app_nth2 by lia. rewrite Nat.sub_diag. reflexivity.
Qed.

Lemma b64_fold_left_add_map {A : Type} (f : A -> float) (l : list A)
    (acc : float) :
  fold_left (fun s c => (s + f c)%float) l acc
  = fold_left PrimFloat.add (map f l) acc.
Proof.
  revert acc. induction l as [|c l IH]; intro acc; simpl.
  - reflexivity.
  - apply IH.
Qed.

(** ** The program over binary64: volume and momentum signal *)

(** C7.  Over binary64, as the code evaluates it.  With fewer than 20 bars
    there is no signal.  With at least 20, the signal is BUY exactly when
    the last volume is above 1.5 times the mean volume of the trailing 20
    bars, the relative move [|close - previous close| / previous close] is
    above 0.002 and the last close is above the previous one; SELL under
    the same volume and momentum conditions with the last close below the
    previous one; and no signal otherwise.  Every sum, product, quotient
    and comparison is the rounded one of the code. *)
Theorem detectSmartMoneySignal_rule (data : list B64.candle) :
  ((length data < 20)%nat -> B64.detectSmartMoneySignal data = None)
  /\ ((20 <= length data)%nat ->
      let current := B64.idx data (length data - 1) in
      let previous := B64.idx data (length data - 2) in
      let avgVolume := B64.mean (map B64.volume (slice_last 20 data)) in
      let spike := B64.gtb (B64.volume current) (avgVolume * 1.5)%float in
      let strong :=
        B64.gtb (PrimFloat.abs (B64.close current - B64.close previous)
                 / B64.close previous)%float 0.002%float in
      let rose := B64.gtb (B64.close current) (B64.close previous) in
      let fell := B64.ltb (B64.close current) (B64.close previous) in
      (B64.detectSmartMoneySignal data = Some BUY
       <-> spike = true /\ strong = true /\ rose = true)
      /\ (B64.detectSmartMoneySignal data = Some SELL
          <-> spike = true /\ strong = true /\ fell = true)
      /\ (B64.detectSmartMoneySignal data = None
          <-> spike = false \/ strong = false
              \/ (rose = false /\ fell = false))).
Proof.
  split.
  - intro H. unfold B64.detectSmartMoneySignal.
    apply Nat.ltb_lt in H. rewrite H. reflexivity.
  - intro H. cbv zeta. unfold B64.detectSmartMoneySignal.
    pose proof H as Hlen. apply Nat.ltb_ge in H. rewrite H.
    unfold B64.mean, B64.sum.
    rewrite length_map, (slice_last_length_pos 20 data) by lia.
    rewrite <- (b64_fold_left_add_map B64.volume).
    change (B64.of_nat 20) with 20%float.
    cbv zeta.
    destruct (B64.gtb (B64.volume _) _);
      destruct (B64.gtb (_ / _)%float _);
      unfold B64.gtb, B64.ltb;
      destruct (B64.close (B64.idx data (length data - 1))
                ?= B64.close (B64.idx data (length data - 2)))%float;
      simpl; repeat split; intros;
      repeat match goal with
             | H : _ /\ _ |- _ => destruct H
             | H : _ \/ _ |- _ => destruct H
             end;
      try discriminate; try reflexivity; auto.
Qed.

(** On [B64.long_series] (100 bars, volume 10 against a mean of 1.45, close
    up 10 percent) the signal is BUY, on [B64.short_series] it is SELL, and
    on 19 bars there is none. *)
Lemma detectSmartMoneySignal_rule_witness :
  B64.detectSmartMoneySignal B64.long_series = Some BUY
  /\ B64.detectSmartMoneySignal B64.short_series = Some SELL
  /\ B64.detectSmartMoneySignal (repeat (B64.flat 100 1) 19) = None.
Proof.
  split; [|split].
  - assert (Hlen : (20 <= length B64.long_series)%nat) by (vm_compute; lia).
    destruct (proj2 (detectSmartMoneySignal_rule B64.long_series) Hlen)
      as (Hbuy & _ & _).
    apply Hbuy. repeat split; vm_compute; reflexivity.
  - assert (Hlen : (20 <= length B64.short_series)%nat) by (vm_compute; lia).
    destruct (proj2 (detectSmartMoneySignal_rule B64.short_series) Hlen)
      as (_ & Hsell & _).
    apply Hsell. repeat split; vm_compute; reflexivity.
  - apply (proj1 (detectSmartMoneySignal_rule (repeat (B64.flat 100 1) 19))).
    vm_compute. lia.
Defined.

(** The comparison with 0.002 is made on the rounded quotient: on
    [B64.threshold_series] the move 16000000000000 / 7999999999999999 is
    above 0.002 as a fraction, its double is the double of the literal, and
    there is no signal. *)
Example detectSmartMoneySignal_at_the_threshold :
  B64.detectSmartMoneySignal B64.threshold_series = None.
Proof. vm_compute. reflexivity. Qed.

(** ** The program over binary64: entry rule *)

Lemma b64_checkEntrySignal_unfold (data : list B64.candle) :
  (100 <= length data)%nat ->
  exists ma100 atr,
    B64.calculateSMA data MA_PERIOD = Some ma100
    /\ B64.calculateATR data ATR_PERIOD = Some atr
    /\ B64.checkEntrySignal data =
       let currentPrice := B64.close (B64.idx data (length data - 1)) in
       let stop := (currentPrice - atr * B64.ATR_MULTIPLIER)%float in
       if negb (B64.truthy ma100) then None
       else if B64.gtb stop ma100
               && match B64.detectSmartMoneySignal data with
                  | Some BUY => true
                  | _ => false
                  end
       then Some (B64.mkSignal LONG currentPrice ma100
                    (currentPrice
                     + (currentPrice - ma100) * B64.RISK_REWARD_RATIO)%float
                    ma100 stop)
       else if B64.ltb stop ma100
               && match B64.detectSmartMoneySignal data with
                  | Some SELL => true
                  | _ => false
                  end
       then Some (B64.mkSignal SHORT currentPrice ma100
                    (currentPrice
                     - (ma100 - currentPrice) * B64.RISK_REWARD_RATIO)%float
                    ma100 stop)
       else None.
Proof.
  intro Hlen.
  assert (H100 : (length data <? 100)%nat = false) by (apply Nat.ltb_ge; lia).
  assert (H11 : (length data <? 10 + 1)%nat = false) by (apply Nat.ltb_ge; lia).
  unfold B64.checkEntrySignal, B64.calculateATRTrailingStop, B64.calculateSMA,
    B64.calculateATR, MA_PERIOD, ATR_PERIOD.
  rewrite H100, H11.
  eexists. eexists.
  split; [reflexivity|]. split; [reflexivity|].
  cbv zeta. unfold B64.falsy_num, B64.to_number, B64.value.
  reflexivity.
Qed.

(** C1, counterexample.  On [B64.zero_mean_series] (100 bars) the closes sum
    to 0 without rounding; the trailing stop is above the moving average 0
    and the momentum signal is BUY; the guard [!ma100] takes the average 0
    for a missing one and [checkEntrySignal] returns no signal. *)
Lemma checkEntrySignal_zero_average :
  length B64.zero_mean_series = 100%nat
  /\ (exists ma100 stop,
        B64.calculateSMA B64.zero_mean_series MA_PERIOD = Some ma100
        /\ B64.calculateATRTrailingStop B64.zero_mean_series ATR_PERIOD
             B64.ATR_MULTIPLIER = Some stop
        /\ B64.gtb (B64.value stop) ma100 = true)
  /\ B64.detectSmartMoneySignal B64.zero_mean_series = Some BUY
  /\ B64.checkEntrySignal B64.zero_mean_series = None.
Proof.
  split; [reflexivity|]. split; [|split; vm_compute; reflexivity].
  eexists. eexists.
  split; [vm_compute; reflexivity|].
  split; [vm_compute; reflexivity|].
  vm_compute. reflexivity.
Qed.

(** C1, amended.  Over binary64, as the code evaluates it.  On at least
    100 bars both indicators exist.  [checkEntrySignal] returns a LONG
    signal exactly when [ma100] is truthy (neither zero nor NaN), the
    trailing stop (last close minus 3 times the ATR) is above [ma100] and
    the momentum signal is BUY; a SHORT signal exactly when [ma100] is
    truthy, the stop is below [ma100] and the momentum signal is SELL; the
    levels are the ones stated, with the code's rounding; in every other
    case it returns no signal; and the two conditions never hold
    together. *)
Theorem checkEntrySignal_rule (data : list B64.candle) :
  (100 <= length data)%nat ->
  exists ma100 atr,
    B64.calculateSMA data MA_PERIOD = Some ma100
    /\ B64.calculateATR data ATR_PERIOD = Some atr
    /\ let currentPrice := B64.close (B64.idx data (length data - 1)) in
       let stop := (currentPrice - atr * B64.ATR_MULTIPLIER)%float in
       let momentum := B64.detectSmartMoneySignal data in
       let long :=
         B64.truthy ma100 = true /\ B64.gtb stop ma100 = true
         /\ momentum = Some BUY in
       let short :=
         B64.truthy ma100 = true /\ B64.ltb stop ma100 = true
         /\ momentum = Some SELL in
       ((exists sg, B64.checkEntrySignal data = Some sg /\ B64.type sg = LONG)
        <-> long)
       /\ (long ->
           B64.checkEntrySignal data =
           Some {| B64.type := LONG;
                   B64.entryPrice := currentPrice;
                   B64.stopLoss := ma100;
                   B64.takeProfit :=
                     (currentPrice
                      + (currentPrice - ma100) * B64.RISK_REWARD_RATIO)%float;
                   B64.ma100 := ma100;
                   B64.atrStop := stop |})
       /\ ((exists sg, B64.checkEntrySignal data = Some sg
                       /\ B64.type sg = SHORT)
           <-> short)
       /\ (short ->
           B64.checkEntrySignal data =
           Some {| B64.type := SHORT;
                   B64.entryPrice := currentPrice;
                   B64.stopLoss := ma100;
                   B64.takeProfit :=
                     (currentPrice
                      - (ma100 - currentPrice) * B64.RISK_REWARD_RATIO)%float;
                   B64.ma100 := ma100;
                   B64.atrStop := stop |})
       /\ (B64.checkEntrySignal data = None <-> ~ long /\ ~ short)
       /\ ~ (long /\ short).
Proof.
  intro Hlen.
  destruct (b64_checkEntrySignal_unfold data Hlen) as (m & a & Hm & Ha & Hce).
  exists m, a. split; [exact Hm|]. split; [exact Ha|].
  cbv zeta in *. rewrite Hce. clear Hce Hm Ha.
  set (cur := B64.close (B64.idx data (length data - 1))).
  set (stop := (cur - a * B64.ATR_MULTIPLIER)%float).
  destruct (B64.truthy m); simpl;
    destruct (B64.gtb stop m); simpl;
    destruct (B64.ltb stop m); simpl;
    destruct (B64.detectSmartMoneySignal data) as [[|]|]; simpl;
    repeat split; intros;
    repeat match goal with
      | H : exists _, _ |- _ => destruct H
      | H : _ /\ _ |- _ => destruct H
      end;
    try congruence;
    try (eexists; split; [reflexivity|reflexivity]);
    try (intros [? [? ?]]; congruence);
    try (intros [[? [? ?]] [? [? ?]]]; congruence);
    try (subst; simpl in *; congruence);
    try match goal with
      | H : Some _ = Some ?x, H0 : B64.type ?x = _ |- _ =>
          injection H as <-; simpl in H0; discriminate
      end;
    try (exfalso;
         match goal with
         | H : ~ _ |- _ => solve [apply H; repeat split; reflexivity]
         end).
Qed.

(** [B64.long_series] yields a LONG signal entered at 110 with its
    stop-loss at the average, [B64.short_series] a SHORT signal entered at
    150. *)
Lemma checkEntrySignal_rule_witness :
  (exists sg, B64.checkEntrySignal B64.long_series = Some sg
              /\ B64.type sg = LONG /\ B64.entryPrice sg = 110%float)
  /\ (exists sg, B64.checkEntrySignal B64.short_series = Some sg
                 /\ B64.type sg = SHORT /\ B64.entryPrice sg = 150%float).
Proof.
  split.
  - assert (Hlen : (100 <= length B64.long_series)%nat) by (vm_compute; lia).
    destruct (checkEntrySignal_rule B64.long_series Hlen)
      as (m & a & Hm & Ha & _ & Hlong & _).
    eexists. split; [apply Hlong|split; reflexivity].
    vm_compute in Hm. injection Hm as <-.
    vm_compute in Ha. injection Ha as <-.
    repeat split; vm_compute; reflexivity.
  - assert (Hlen : (100 <= length B64.short_series)%nat) by (vm_compute; lia).
    destruct (checkEntrySignal_rule B64.short_series Hlen)
      as (m & a & Hm & Ha & _ & _ & _ & Hshort & _).
    eexists. split; [apply Hshort|split; reflexivity].
    vm_compute in Hm. injection Hm as <-.
    vm_compute in Ha. injection Ha as <-.
    repeat split; vm_compute; reflexivity.
Defined.

(** ** The program over binary64: the levels of a LONG signal *)


(** ** The program over binary64: position sizing *)

Lemma b64_updatePriceData_core (s : B64.trading_state) (api : B64.gateway) :
  exists s1,
    B64.updatePriceData s api = (s1, [B64.GetKlines])
    /\ B64.balance s1 = B64.balance s
    /\ B64.inPosition s1 = B64.inPosition s
    /\ B64.currentPosition s1 = B64.currentPosition s
    /\ B64.trades s1 = B64.trades s.
Proof.
  unfold B64.updatePriceData.
  destruct (0 <? length (B64.getKlines api))%nat; eexists; repeat split.
Qed.

(** C6.  Over binary64, as the code evaluates it.  An entry attempt
    computes the quantity
    [floor(balance * positionSize / 100 * leverage / entryPrice * 10) / 10]
    from the balance the venue reports, each operation rounded as the code
    rounds it.  When it is [<= 0] the attempt ends there: the state is
    unchanged (a cycle that started flat ends flat, with no current
    position) and the only request sent is the balance query, no market or
    stop order.  Otherwise the market order is sent for exactly that
    quantity.  With balance 100, position size 100, leverage 10 and entry
    price 1000000 the quantity is 0 and the entry is aborted. *)
Theorem openPosition_sizing (POSITION_SIZE LEVERAGE : float) :
  (forall s api sg,
     let quantity :=
       (B64.floor (B64.getBalance api * POSITION_SIZE / 100 * LEVERAGE
                   / B64.entryPrice sg * 10) / 10)%float in
     (B64.leb quantity 0 = true ->
        B64.openPosition POSITION_SIZE LEVERAGE s api sg
        = (s, [B64.GetBalance]))
     /\ (B64.leb quantity 0 = false ->
        exists sd,
          In (B64.PlaceMarketOrder sd quantity)
             (snd (B64.openPosition POSITION_SIZE LEVERAGE s api sg))))
  /\ (forall s api sg price,
        B64.inPosition s = false ->
        B64.currentPosition s = None ->
        let s1 := fst (B64.updatePriceData s api) in
        B64.lastClose (B64.priceData s1) = Some price ->
        B64.truthy price = true ->
        B64.checkEntrySignal (B64.priceData s1) = Some sg ->
        B64.leb
          (B64.orderQuantity POSITION_SIZE LEVERAGE (B64.getBalance api)
             (B64.entryPrice sg)) 0 = true ->
        let r := B64.checkForSignals POSITION_SIZE LEVERAGE s api in
        B64.inPosition (fst r) = false
        /\ B64.currentPosition (fst r) = None
        /\ forallb (fun q => negb (B64.is_order q)) (snd r) = true)
  /\ (forall s api sg,
        B64.getBalance api = 100%float ->
        B64.entryPrice sg = 1000000%float ->
        B64.orderQuantity 100 10 (B64.getBalance api) (B64.entryPrice sg)
        = 0%float
        /\ B64.openPosition 100 10 s api sg = (s, [B64.GetBalance])).
Proof.
  split; [|split].
  - intros s api sg quantity. unfold B64.openPosition, B64.orderQuantity.
    fold quantity. split; intro H; rewrite H; [reflexivity|].
    destruct (B64.placeMarketOrder api _ quantity);
      eexists; simpl; right; left; reflexivity.
  - intros s api sg price Hin Hcur s1 Hlast Htruthy Hsig Hq r.
    subst r. unfold B64.checkForSignals.
    destruct (b64_updatePriceData_core s api) as (s1' & Hs1 & _ & Hi & Hc & _).
    assert (Heq : s1 = s1') by (subst s1; rewrite Hs1; reflexivity).
    rewrite <- Heq in *. clear Heq s1'.
    rewrite Hin in Hi. rewrite Hcur in Hc.
    rewrite Hs1, Hlast, Htruthy, Hi, Hsig. simpl.
    unfold B64.openPosition. rewrite Hq. simpl.
    rewrite Hi, Hc. repeat split.
  - intros s api sg Hbal Hentry.
    unfold B64.openPosition. rewrite Hbal, Hentry.
    split; vm_compute; reflexivity.
Qed.

(** The gateway reports 100 and the entry price is 1000000: no order.  A
    cycle that finds the signal of [B64.long_series] with no balance at the
    venue ends flat, with no order sent. *)
Lemma openPosition_sizing_witness :
  B64.openPosition 100 10 B64.tradingState (B64.funded_gateway 100 [])
    B64.expensive_signal
  = (B64.tradingState, [B64.GetBalance])
  /\ (let r := B64.checkForSignals 100 10 B64.tradingState
                 (B64.funded_gateway 0 B64.long_series) in
      B64.inPosition (fst r) = false
      /\ B64.currentPosition (fst r) = None
      /\ forallb (fun q => negb (B64.is_order q)) (snd r) = true)
  /\ B64.orderQuantity 100 10 100 1000000 = 0%float.
Proof.
  destruct (openPosition_sizing 100 10) as (H1 & H2 & H3).
  split; [|split].
  - apply (H1 B64.tradingState (B64.funded_gateway 100 [])
             B64.expensive_signal).
    vm_compute. reflexivity.
  - eapply (H2 B64.tradingState (B64.funded_gateway 0 B64.long_series)
              _ 110%float);
      vm_compute; reflexivity.
  - apply (H3 B64.tradingState (B64.funded_gateway 100 [])
             B64.expensive_signal);
      reflexivity.
Defined.

(** The lot is the rounded one.  A balance of 0.19 at an entry of 19 buys
    the fraction 0.1: the code's quotient 1.9 / 19 rounds below 0.1 and the
    lot is 0.  A balance of 0.13990738110817943 at an entry of
    13.990738110817944 buys less than 0.1 as a fraction: the code's
    quotient rounds to 0.1 and the lot is 0.1. *)
Example orderQuantity_is_the_rounded_lot :
  B64.orderQuantity 100 10 0.19 19 = 0%float
  /\ B64.orderQuantity 100 10 0.13990738110817943 13.990738110817944
     = 0.1%float.
Proof. split; vm_compute; reflexivity. Qed.

(** ** The program over binary64: the engine's cycle *)

(** X19.  Over binary64, as the code evaluates it.  A cycle that starts
    flat and ends in position has found a signal on the candles it holds,
    has sized it to a quantity that is not [<= 0], and has had its market
    order accepted; the position it records is that signal with that
    quantity and the venue's order identifier, and the balance and the
    history are untouched. *)
Theorem checkForSignals_opens_what_it_found (POSITION_SIZE LEVERAGE : float)
    (s : B64.trading_state) (api : B64.gateway) :
  B64.inPosition s = false ->
  let r := B64.checkForSignals POSITION_SIZE LEVERAGE s api in
  B64.inPosition (fst r) = true ->
  exists sg o,
    B64.checkEntrySignal (B64.priceData (fst r)) = Some sg
    /\ let q := B64.orderQuantity POSITION_SIZE LEVERAGE (B64.getBalance api)
                  (B64.entryPrice sg) in
       B64.leb q 0 = false
       /\ B64.placeMarketOrder api
            (match B64.type sg with LONG => BUY | SHORT => SELL end) q
          = Some o
       /\ B64.currentPosition (fst r)
          = Some (B64.mkPosition sg q (B64.clock api) (order_id o))
       /\ B64.balance (fst r) = B64.balance s
       /\ B64.trades (fst r) = B64.trades s.
Proof.
  intros Hin. cbv zeta. unfold B64.checkForSignals.
  destruct (b64_updatePriceData_core s api) as (s1 & -> & Hb & Hi & Hc & Ht).
  rewrite Hin in Hi.
  destruct (B64.lastClose (B64.priceData s1)) as [price|];
    [|simpl; intro H; congruence].
  destruct (B64.truthy price); simpl; [|intro H; congruence].
  rewrite Hi.
  destruct (B64.checkEntrySignal (B64.priceData s1)) as [sg|] eqn:Hsig;
    [|destruct (B64.currentPosition s1); simpl; intro H; congruence].
  assert (Hgoal :
    B64.inPosition (fst (B64.openPosition POSITION_SIZE LEVERAGE s1 api sg))
    = true ->
    exists sg0 o,
      B64.checkEntrySignal
        (B64.priceData
           (fst (B64.openPosition POSITION_SIZE LEVERAGE s1 api sg)))
      = Some sg0
      /\ B64.leb
           (B64.orderQuantity POSITION_SIZE LEVERAGE (B64.getBalance api)
              (B64.entryPrice sg0)) 0 = false
      /\ B64.placeMarketOrder api
           (match B64.type sg0 with LONG => BUY | SHORT => SELL end)
           (B64.orderQuantity POSITION_SIZE LEVERAGE (B64.getBalance api)
              (B64.entryPrice sg0)) = Some o
      /\ B64.currentPosition
           (fst (B64.openPosition POSITION_SIZE LEVERAGE s1 api sg))
         = Some (B64.mkPosition sg0
                   (B64.orderQuantity POSITION_SIZE LEVERAGE
                      (B64.getBalance api) (B64.entryPrice sg0))
                   (B64.clock api) (order_id o))
      /\ B64.balance (fst (B64.openPosition POSITION_SIZE LEVERAGE s1 api sg))
         = B64.balance s
      /\ B64.trades (fst (B64.openPosition POSITION_SIZE LEVERAGE s1 api sg))
         = B64.trades s).
  { unfold B64.openPosition.
    destruct (B64.leb _ _) eqn:Hq; [simpl; intro H; congruence|].
    destruct (B64.placeMarketOrder api _ _) as [o|] eqn:Hm;
      [|simpl; intro H; congruence].
    simpl. intros _. exists sg, o. repeat split; assumption. }
  destruct (B64.currentPosition s1);
    destruct (B64.openPosition POSITION_SIZE LEVERAGE s1 api sg) as [s2 reqs2];
    exact Hgoal.
Qed.

(** From the initial state, a cycle on [B64.long_series] with a venue that
    reports a balance of 100 and fills the market order records the signal
    found, entered at 110, with the quantity 9 that the balance buys. *)
Lemma checkForSignals_opens_what_it_found_witness :
  exists sg o,
    B64.checkEntrySignal B64.long_series = Some sg
    /\ B64.entryPrice sg = 110%float
    /\ B64.currentPosition
         (fst (B64.checkForSignals 100 10 B64.tradingState
                 (B64.funded_gateway 100 B64.long_series)))
       = Some (B64.mkPosition sg 9 1 (order_id o)).
Proof.
  destruct (checkForSignals_opens_what_it_found 100 10 B64.tradingState
              (B64.funded_gateway 100 B64.long_series) eq_refl)
    as (sg & o & Hsig & _ & _ & Hcur & _).
  - vm_compute. reflexivity.
  - exists sg, o.
    assert (Hsg : B64.checkEntrySignal B64.long_series = Some sg)
      by exact Hsig.
    split; [exact Hsg|].
    vm_compute in Hsg. injection Hsg as <-.
    split; [reflexivity|]. rewrite Hcur. vm_compute. reflexivity.
Defined.

Lemma b64_run_app (PS LEV : float) (s : B64.trading_state)
    (evs1 evs2 : list (B64.operation * B64.gateway)) :
  B64.run PS LEV s (evs1 ++ evs2)
  = B64.run PS LEV (B64.run PS LEV s evs1) evs2.
Proof.
  unfold B64.run. apply fold_left_app.
Qed.

(** One operation other than [initialize] leaves the balance and the
    history as they are, or appends one trade and adds its profit to the
    balance. *)
Lemma b64_step_balance (PS LEV : float) (s : B64.trading_state)
    (ev : B64.operation * B64.gateway) :
  fst ev <> B64.Initialize ->
  (B64.trades (fst (B64.step PS LEV s ev)) = B64.trades s
   /\ B64.balance (fst (B64.step PS LEV s ev)) = B64.balance s)
  \/ (exists t,
        B64.trades (fst (B64.step PS LEV s ev)) = B64.trades s ++ [t]
        /\ B64.balance (fst (B64.step PS LEV s ev))
           = (B64.balance s + B64.profit t)%float).
Proof.
  destruct ev as [op api]. unfold B64.step. simpl. intro Hop.
  assert (Hopen : forall s1 sg,
            B64.trades (fst (B64.openPosition PS LEV s1 api sg))
            = B64.trades s1
            /\ B64.balance (fst (B64.openPosition PS LEV s1 api sg))
               = B64.balance s1).
  { intros. unfold B64.openPosition.
    destruct (B64.leb _ _); [split; reflexivity|].
    destruct (B64.placeMarketOrder api _ _); split; reflexivity. }
  assert (Hclose : forall s1 r p,
            (B64.trades (fst (B64.closePosition LEV s1 api r p))
             = B64.trades s1
             /\ B64.balance (fst (B64.closePosition LEV s1 api r p))
                = B64.balance s1)
            \/ (exists t,
                  B64.trades (fst (B64.closePosition LEV s1 api r p))
                  = B64.trades s1 ++ [t]
                  /\ B64.balance (fst (B64.closePosition LEV s1 api r p))
                     = (B64.balance s1 + B64.profit t)%float)).
  { intros. unfold B64.closePosition.
    destruct (B64.api_closePosition api); [|left; split; reflexivity].
    destruct (B64.currentPosition s1) as [pos|]; [|left; split; reflexivity].
    right. eexists. simpl. split; reflexivity. }
  destruct op as [| |sg|r p]; [congruence| |apply or_introl, Hopen|apply Hclose].
  unfold B64.checkForSignals.
  destruct (b64_updatePriceData_core s api) as (s1 & -> & Hb & _ & _ & Ht).
  rewrite <- Hb, <- Ht.
  destruct (B64.lastClose (B64.priceData s1)) as [price|];
    [|left; split; reflexivity].
  destruct (B64.truthy price); simpl; [|left; split; reflexivity].
  destruct (B64.inPosition s1), (B64.currentPosition s1) as [pos|];
    try (destruct (B64.checkEntrySignal (B64.priceData s1)) as [sg|];
         [|left; split; reflexivity];
         pose proof (Hopen s1 sg) as Ho;
         destruct (B64.openPosition PS LEV s1 api sg) as [s2 reqs2];
         left; exact Ho).
  destruct (B64.checkExit pos price) as [r p|]; [|left; split; reflexivity].
  pose proof (Hclose s1 r p) as Hcl.
  destruct (B64.closePosition LEV s1 api r p) as [s2 reqs2]. exact Hcl.
Qed.

(** X12.  Over binary64, as the code evaluates it.  Along a run that does
    not re-initialise, the balance is the balance at the start with the
    profit of each trade closed since added to it, one rounded addition per
    trade in the order of the history: the balance moves only when a trade
    is recorded, and by that trade's profit. *)
Theorem balance_follows_trades (POSITION_SIZE LEVERAGE : float)
    (s : B64.trading_state) (evs : list (B64.operation * B64.gateway)) :
  Forall (fun ev => fst ev <> B64.Initialize) evs ->
  exists closed,
    B64.trades (B64.run POSITION_SIZE LEVERAGE s evs) = B64.trades s ++ closed
    /\ B64.balance (B64.run POSITION_SIZE LEVERAGE s evs)
       = fold_left (fun b t => (b + B64.profit t)%float) closed
           (B64.balance s).
Proof.
  revert s. induction evs as [|ev evs IH]; intros s Hevs.
  - exists []. simpl. rewrite app_nil_r. split; reflexivity.
  - inversion Hevs as [|? ? Hev Hrest]; subst.
    change (ev :: evs) with ([ev] ++ evs). rewrite b64_run_app.
    destruct (IH (B64.run POSITION_SIZE LEVERAGE s [ev]) Hrest)
      as (closed & Ht & Hb).
    rewrite Ht, Hb. unfold B64.run. simpl fold_left.
    destruct (b64_step_balance POSITION_SIZE LEVERAGE s ev Hev)
      as [[Ht1 Hb1]|(t & Ht1 & Hb1)]; rewrite Ht1, Hb1.
    + exists closed. split; reflexivity.
    + exists (t :: closed). rewrite <- app_assoc. split; reflexivity.
Qed.

(** From the initial state, a cycle on [B64.long_series] opens a LONG
    position of 9 at 110 and a cycle on the same bars followed by a bar at
    130 takes the profit: one trade, and the balance 0 plus its profit
    [20 * 9 * 10]. *)
Lemma balance_follows_trades_witness :
  (exists closed,
     B64.trades (B64.run 100 10 B64.tradingState B64.two_cycles)
     = B64.trades B64.tradingState ++ closed
     /\ B64.balance (B64.run 100 10 B64.tradingState B64.two_cycles)
        = fold_left (fun b t => (b + B64.profit t)%float) closed
            (B64.balance B64.tradingState))
  /\ B64.balance (B64.run 100 10 B64.tradingState B64.two_cycles)
     = 1800%float.
Proof.
  split; [|vm_compute; reflexivity].
  apply (balance_follows_trades 100 10 B64.tradingState B64.two_cycles).
  repeat constructor; discriminate.
Defined.
